(** * md_server.py: a shallow embedding of the Markdown viewer/editor server

    The development follows [src/md_server.py]: the Python [str] methods
    the handlers call, the [pathlib] path arithmetic behind the security
    check of [save_markdown], a POSIX directory tree for [exists], [open]
    and [os.walk], a small state-and-exception monad for the request
    handlers, and finally the handlers themselves. *)

From Stdlib Require Import String Ascii List Bool ZArith Lia.
From Stdlib Require Import Sorting.Sorted Sorting.Permutation.
Import ListNotations.
Local Open Scope list_scope.
Local Open Scope string_scope.
Set Warnings "-register-all".

(** ** Python [str]

    A [str] is modelled by the sequence of bytes of its UTF-8 encoding; a
    lone surrogate U+DC80..U+DCFF, which is how Python carries an
    undecodable byte of a file name, is modelled by that byte.  Every
    pattern the server matches on is ASCII, and UTF-8 is
    self-synchronising, so prefix, suffix and substring tests on the bytes
    agree with the tests on code points.  The value of a header is
    decoded as Latin-1 by [http.server]: there a character is one byte. *)

Module Str.

(** [s.startswith(p)] *)
Definition startswith (s p : string) : bool := String.prefix p s.

(** [s.endswith(suf)] *)
Fixpoint endswith (s suf : string) : bool :=
  String.eqb s suf ||
  match s with
  | EmptyString => false
  | String _ s' => endswith s' suf
  end.

Fixpoint drop (n : nat) (s : string) : string :=
  match n, s with
  | O, _ => s
  | S _, EmptyString => EmptyString
  | S k, String _ s' => drop k s'
  end.

(** [count] of [str.replace]: [None] is Python's default (-1, replace
    every occurrence), [Some n] allows [n] replacements. *)
Definition may_replace (count : option nat) : bool :=
  match count with
  | None => true
  | Some O => false
  | Some (S _) => true
  end.

Definition used_one (count : option nat) : option nat :=
  match count with
  | None => None
  | Some n => Some (pred n)
  end.

(** The scan of [str.replace] for a non-empty pattern: left to right,
    non-overlapping.  [skip] counts the characters of a matched
    occurrence that are still to be passed over. *)
Fixpoint replace_scan (old new : string) (count : option nat)
         (skip : nat) (s : string) : string :=
  match s with
  | EmptyString => EmptyString
  | String c s' =>
      match skip with
      | S k => replace_scan old new count k s'
      | O =>
          if may_replace count && String.prefix old s
          then new ++ replace_scan old new (used_one count)
                                   (pred (String.length old)) s'
          else String c (replace_scan old new count 0 s')
      end
  end.

(** With an empty pattern Python inserts [new] in every gap. *)
Fixpoint replace_gaps (new : string) (count : option nat) (s : string)
  : string :=
  match s with
  | EmptyString => if may_replace count then new else EmptyString
  | String c s' =>
      if may_replace count
      then new ++ String c (replace_gaps new (used_one count) s')
      else s
  end.

(** [s.replace(old, new, count)] *)
Definition replace (s old new : string) (count : option nat) : string :=
  match old with
  | EmptyString => replace_gaps new count s
  | String _ _ => replace_scan old new count 0 s
  end.

Fixpoint mem (c : ascii) (chars : string) : bool :=
  match chars with
  | EmptyString => false
  | String d r => Ascii.eqb c d || mem c r
  end.

(** [s.lstrip(chars)] *)
Fixpoint lstrip (s chars : string) : string :=
  match s with
  | EmptyString => EmptyString
  | String c s' => if mem c chars then lstrip s' chars else s
  end.

(** [s.split(sep)] for a one-character separator. *)
Fixpoint split (sep : ascii) (s : string) : list string :=
  match s with
  | EmptyString => [EmptyString]
  | String c s' =>
      if Ascii.eqb c sep then EmptyString :: split sep s'
      else match split sep s' with
           | h :: t => String c h :: t
           | [] => [String c EmptyString]
           end
  end.

(** [sep.join(parts)] *)
Definition join (sep : string) (parts : list string) : string :=
  String.concat sep parts.

(** Character-wise substitution, the closed form of a [replace] whose
    pattern is one character. *)
Fixpoint subst (f : ascii -> string) (s : string) : string :=
  match s with
  | EmptyString => EmptyString
  | String c s' => f c ++ subst f s'
  end.

(** [needle in s] *)
Definition contains (s needle : string) : Prop :=
  exists pre post, s = pre ++ needle ++ post.

End Str.

(** ** Code points

    What the codecs and the comparison of strings see. *)

Module Codec.

Definition byte (c : ascii) : N := N_of_ascii c.

Definition in_range (b : ascii) (lo hi : N) : bool :=
  (N.leb lo (byte b) && N.leb (byte b) hi)%bool.

Definition cont (b : ascii) : bool := in_range b 128 191.

(** The lead byte and the first continuation byte of a well-formed
    sequence of three bytes: no overlong form, no surrogate. *)
Definition lead3 (b0 b1 : ascii) : bool :=
  (in_range b0 224 224 && in_range b1 160 191)
  || ((in_range b0 225 236 || in_range b0 238 239) && cont b1)
  || (in_range b0 237 237 && in_range b1 128 159).

(** Likewise for four bytes: nothing above U+10FFFF. *)
Definition lead4 (b0 b1 : ascii) : bool :=
  (in_range b0 240 240 && in_range b1 144 191)
  || (in_range b0 241 243 && cont b1)
  || (in_range b0 244 244 && in_range b1 128 143).

(** The surrogate that stands for an undecodable byte. *)
Definition escaped (b : ascii) : N := (56320 + byte b)%N.

(** The code points of a [str]: each well-formed UTF-8 sequence is its
    code point, every other byte is the lone surrogate that carries it. *)
Fixpoint code_points (s : string) : list N :=
  match s with
  | EmptyString => []
  | String b0 r =>
      if in_range b0 0 127 then byte b0 :: code_points r
      else
        match r with
        | EmptyString => [escaped b0]
        | String b1 r1 =>
            if in_range b0 194 223 && cont b1
            then ((byte b0 - 192) * 64 + (byte b1 - 128))%N :: code_points r1
            else
              match r1 with
              | EmptyString => escaped b0 :: code_points r
              | String b2 r2 =>
                  if lead3 b0 b1 && cont b2
                  then ((byte b0 - 224) * 4096 + (byte b1 - 128) * 64
                        + (byte b2 - 128))%N :: code_points r2
                  else
                    match r2 with
                    | EmptyString => escaped b0 :: code_points r
                    | String b3 r3 =>
                        if lead4 b0 b1 && cont b2 && cont b3
                        then ((byte b0 - 240) * 262144
                              + (byte b1 - 128) * 4096
                              + (byte b2 - 128) * 64 + (byte b3 - 128))%N
                             :: code_points r3
                        else escaped b0 :: code_points r
                    end
              end
        end
  end.

Definition is_surrogate (cp : N) : bool := (N.leb 55296 cp && N.leb cp 57343)%bool.

(** The bytes are well-formed UTF-8: the [str] has no lone surrogate. *)
Definition utf8_valid (s : string) : bool :=
  forallb (fun cp => negb (is_surrogate cp)) (code_points s).

(** Every character is in Latin-1. *)
Definition latin1_ok (s : string) : bool :=
  forallb (fun cp => N.leb cp 255) (code_points s).

(** Comparison of two [str], code point by code point. *)
Fixpoint lex_leb (a b : list N) : bool :=
  match a, b with
  | [], _ => true
  | _ :: _, [] => false
  | x :: a', y :: b' =>
      if N.ltb x y then true
      else if N.ltb y x then false
      else lex_leb a' b'
  end.

Definition str_leb (a b : string) : bool :=
  lex_leb (code_points a) (code_points b).

End Codec.

(** ** Exceptions

    The exceptions the modelled library calls raise, with the operands
    that their text depends on.  The text itself, [str(e)], is CPython's
    and is a parameter of the handlers. *)

Inductive errno : Type :=
| ENOENT
| ENXIO
| ENOTDIR
| EISDIR
| ENAMETOOLONG.

Inductive exn : Type :=
| NotRelative (self other : list string)
                       (* ValueError: relative_to, not in the subpath *)
| NullByte             (* ValueError: embedded null byte *)
| InvalidLiteral (s : string)
                       (* ValueError: invalid literal for int() *)
| TooManyDigits (digits : nat)
                       (* ValueError: int() over the limit of 4300 digits *)
| ReadLength           (* ValueError: read length below -1 *)
| NoneToInt            (* TypeError: int(None) *)
| IndexOverflow        (* OverflowError: not an index-sized integer *)
| BytesOverflow        (* OverflowError: byte string is too large *)
| MemoryError
| OSError (e : errno) (filename : string)
| UnicodeDecodeError (object : string)
| UnicodeEncodeError (encoding : string) (object : string)
| Raised (class text : string).
                       (* an exception of the Markdown library *)

(** [isinstance(e, ValueError)]; the Unicode errors are subclasses. *)
Definition is_ValueError (e : exn) : bool :=
  match e with
  | NotRelative _ _ | NullByte | InvalidLiteral _ | TooManyDigits _
  | ReadLength | UnicodeDecodeError _ | UnicodeEncodeError _ _ => true
  | Raised class _ => String.eqb class "ValueError"
  | _ => false
  end.

Inductive res (A : Type) : Type :=
| Ok (a : A)
| Raise (e : exn).
Arguments Ok {A} a.
Arguments Raise {A} e.

(** ** [pathlib] on POSIX

    [SCRIPT_DIR] is the directory of the script file, an absolute path;
    joining a string to it gives an absolute path again.  An absolute path
    is the list of its parts below the root [/].  The directory tree has
    no symbolic links: [os.path.realpath] then only folds the [..]
    parts, which is [canonical]. *)

Module Posix.

Definition PosixPath : Type := list string.

Definition is_part (c : string) : bool :=
  negb (String.eqb c "") && negb (String.eqb c ".").

(** Parsing of a path string: empty parts and [.] parts are dropped,
    [..] parts are kept. *)
Definition parse_parts (s : string) : list string :=
  filter is_part (Str.split "/" s).

(** [base / arg]: an absolute argument replaces the base. *)
Definition joinpath (base : PosixPath) (arg : string) : PosixPath :=
  if Str.startswith arg "/" then parse_parts arg
  else (base ++ parse_parts arg)%list.

(** [str(path)] *)
Definition render (p : PosixPath) : string :=
  "/" ++ Str.join "/" p.

Definition realpath_step (acc : list string) (c : string) : list string :=
  if String.eqb c ".." then removelast acc else (acc ++ [c])%list.

(** The canonical form of a path on a tree without symbolic links. *)
Definition canonical (p : PosixPath) : PosixPath :=
  fold_left realpath_step p [].

Definition NUL : ascii := "000"%char.

Definition has_nul (p : PosixPath) : bool :=
  existsb (fun c => Str.mem NUL c) p.

(** [path.resolve()]: [realpath] calls [lstat] on the path up to each
    part in turn, and [lstat] raises [ValueError] when the part holds a
    NUL byte; its [OSError]s are swallowed. *)
Definition resolve (p : PosixPath) : res PosixPath :=
  if has_nul p then Raise NullByte else Ok (canonical p).

Fixpoint below (self other : PosixPath) {struct other} : option PosixPath :=
  match other with
  | [] => Some self
  | o :: other' =>
      match self with
      | [] => None
      | s :: self' => if String.eqb s o then below self' other' else None
      end
  end.

(** [self.relative_to(other)]: the parts of [self] below [other], or
    [ValueError] when [other] is not a prefix of [self]. *)
Definition relative_to (self other : PosixPath) : res PosixPath :=
  match below self other with
  | Some r => Ok r
  | None => Raise (NotRelative self other)
  end.

End Posix.

(** ** The directory tree

    Regular files, directories and sockets (the kind of special file
    whose [open] fails at once); no symbolic links, FIFOs or devices.
    The limits are those of Linux. *)

Module FS.
Import Codec Posix.

Inductive node : Type :=
| File (data : string)
| Dir (entries : list (string * node))
| Socket.

Definition NAME_MAX : nat := 255.
Definition PATH_MAX : nat := 4096.

Fixpoint assoc (name : string) (es : list (string * node)) : option node :=
  match es with
  | [] => None
  | (n, v) :: es' => if String.eqb n name then Some v else assoc name es'
  end.

(** Replace the entry called [name], or add it at the end. *)
Fixpoint put_entry (name : string) (v : node) (es : list (string * node))
  : list (string * node) :=
  match es with
  | [] => [(name, v)]
  | (n, w) :: es' =>
      if String.eqb n name then (n, v) :: es'
      else (n, w) :: put_entry name v es'
  end.

(** The node at a canonical path (no [..] parts). *)
Fixpoint get (t : node) (p : list string) : option node :=
  match p with
  | [] => Some t
  | c :: r =>
      match t with
      | Dir es =>
          match assoc c es with
          | Some ch => get ch r
          | None => None
          end
      | _ => None
      end
  end.

(** Store [v] at a canonical path whose parent directory exists. *)
Fixpoint set (t : node) (p : list string) (v : node) : option node :=
  match p with
  | [] => Some v
  | c :: r =>
      match t with
      | Dir es =>
          let child :=
            match assoc c es with
            | Some ch => set ch r v
            | None => match r with [] => Some v | _ :: _ => None end
            end in
          match child with
          | Some ch' => Some (Dir (put_entry c ch' es))
          | None => None
          end
      | _ => None
      end
  end.

Definition is_dir (o : option node) : bool :=
  match o with
  | Some (Dir _) => true
  | _ => false
  end.

(** The kernel's walk along a path: [..] goes to the parent of the
    directory reached so far; a part longer than [NAME_MAX] bytes is
    refused; every part but the last has to name an existing directory.
    The result is the canonical path of the target, whose last part need
    not exist. *)
Fixpoint link_path_walk (t : node) (cur : list string) (rest : list string)
  : errno + list string :=
  match rest with
  | [] => inr cur
  | c :: r =>
      if String.eqb c ".." then link_path_walk t (removelast cur) r
      else if Nat.ltb NAME_MAX (String.length c) then inl ENAMETOOLONG
      else
        match r with
        | [] => inr (cur ++ [c])%list
        | _ :: _ =>
            match get t (cur ++ [c])%list with
            | Some (Dir _) => link_path_walk t (cur ++ [c])%list r
            | Some _ => inl ENOTDIR
            | None => inl ENOENT
            end
        end
  end.

(** Where a walk ends, when it ends somewhere. *)
Definition found (x : errno + list string) : option (list string) :=
  match x with
  | inr q => Some q
  | inl _ => None
  end.

Inductive lookup_failure : Type :=
| Null
| Err (e : errno).

(** What a system call on a path does first: Python refuses a path with
    a NUL byte, the kernel one of [PATH_MAX] bytes or more, then the walk
    starts (from [cur], the root in every use). *)
Definition lookup (t : node) (cur : list string) (rest : list string)
  : lookup_failure + list string :=
  if has_nul rest then inl Null
  else if Nat.leb PATH_MAX (String.length (render rest)) then inl (Err ENAMETOOLONG)
  else
    match link_path_walk t cur rest with
    | inl e => inl (Err e)
    | inr q => inr q
    end.

(** Where a path leads, when it leads somewhere. *)
Definition namei (t : node) (cur : list string) (rest : list string)
  : option (list string) :=
  match lookup t cur rest with
  | inr q => Some q
  | inl _ => None
  end.

(** [path.exists()]: [stat], with [ENOENT] and [ENOTDIR] (and the
    [ValueError] of a NUL byte) turned into [False] and every other
    [OSError] raised again. *)
Definition exists_ (t : node) (p : PosixPath) : res bool :=
  match lookup t [] p with
  | inl Null => Ok false
  | inl (Err ENAMETOOLONG) => Raise (OSError ENAMETOOLONG (render p))
  | inl (Err _) => Ok false
  | inr q => Ok (match get t q with Some _ => true | None => false end)
  end.

(** [bytes.decode("utf-8")]; the text is the same bytes. *)
Definition decode_utf8 (b : string) : res string :=
  if utf8_valid b then Ok b else Raise (UnicodeDecodeError b).

(** [str.encode()] *)
Definition encode_utf8 (s : string) : res string :=
  if utf8_valid s then Ok s else Raise (UnicodeEncodeError "utf-8" s).

Definition CR : ascii := "013"%char.
Definition LF : ascii := "010"%char.

(** Text-mode reading with the default [newline=None]: each of CR LF
    and CR alone comes back as LF. *)
Fixpoint universal_newlines (s : string) : string :=
  match s with
  | EmptyString => EmptyString
  | String c s' =>
      if Ascii.eqb c CR
      then String LF
             match s' with
             | EmptyString => EmptyString
             | String c2 s'' =>
                 if Ascii.eqb c2 LF then universal_newlines s''
                 else universal_newlines s'
             end
      else String c (universal_newlines s')
  end.

(** The exception of [open] for a lookup that failed. *)
Definition open_failure (f : lookup_failure) (p : PosixPath) : exn :=
  match f with
  | Null => NullByte
  | Err e => OSError e (render p)
  end.

(** [with open(p, "r", encoding="utf-8") as f: f.read()] *)
Definition read_text (t : node) (p : PosixPath) : res string :=
  match lookup t [] p with
  | inl f => Raise (open_failure f p)
  | inr q =>
      match get t q with
      | None => Raise (OSError ENOENT (render p))
      | Some (Dir _) => Raise (OSError EISDIR (render p))
      | Some Socket => Raise (OSError ENXIO (render p))
      | Some (File d) =>
          match decode_utf8 d with
          | Ok txt => Ok (universal_newlines txt)
          | Raise e => Raise e
          end
      end
  end.

(** [with open(p, "w", encoding="utf-8") as f: f.write(content)]: the
    new tree.  On POSIX the line separator is LF and writing translates
    nothing.  The process may write wherever the lookup leads and the
    file system has room. *)
Definition write_text (t : node) (p : PosixPath) (content : string)
  : res node :=
  match lookup t [] p with
  | inl f => Raise (open_failure f p)
  | inr q =>
      match get t q with
      | Some (Dir _) => Raise (OSError EISDIR (render p))
      | Some Socket => Raise (OSError ENXIO (render p))
      | _ =>
          match set t q (File content) with
          | Some t' => Ok t'
          | None => Raise (OSError ENOENT (render p))
          end
      end
  end.

Definition dir_names (es : list (string * node)) : list string :=
  flat_map (fun e => match snd e with Dir _ => [fst e] | _ => [] end) es.

(** The names [os.walk] puts in [files]: every entry that is not a
    directory. *)
Definition file_names (es : list (string * node)) : list string :=
  flat_map (fun e => match snd e with Dir _ => [] | _ => [fst e] end) es.

(** [os.walk(top)], top-down, when the loop body filters [dirs] in
    place ([dirs[:] = [d for d in dirs if keep d]]): the triples
    [(root, dirs, files)] in the order they are produced, [root] given
    by its parts below [top], [dirs] as the body leaves it.  The walk
    descends into the directories that remain in [dirs]. *)
Fixpoint os_walk (keep : string -> bool) (root : list string) (t : node)
  : list (list string * list string * list string) :=
  match t with
  | Dir es =>
      (root, filter keep (dir_names es), file_names es)
      :: (fix descend (l : list (string * node)) :=
            match l with
            | [] => []
            | (name, ch) :: l' =>
                match ch with
                | Dir _ =>
                    if keep name
                    then (os_walk keep (root ++ [name]) ch ++ descend l')%list
                    else descend l'
                | _ => descend l'
                end
            end) es
  | _ => []
  end.

(** Induction on the tree, with the hypothesis for every entry of a
    directory. *)
Fixpoint node_ind_entries (P : node -> Prop)
         (HF : forall d, P (File d))
         (HD : forall es, Forall (fun e => P (snd e)) es -> P (Dir es))
         (HS : P Socket)
         (t : node) : P t :=
  match t with
  | File d => HF d
  | Dir es =>
      HD es
         ((fix all (l : list (string * node)) : Forall (fun e => P (snd e)) l :=
             match l with
             | [] => Forall_nil _
             | (name, ch) :: l' =>
                 Forall_cons (name, ch) (node_ind_entries P HF HD HS ch) (all l')
             end) es)
  | Socket => HS
  end.

End FS.

(** ** The request handler

    The handlers run in a state-and-exception monad.  The state is the
    directory tree, the log of the calls that reach the file system or the
    Markdown library, and what has been written to the client.  The
    client stays connected: a write to [wfile] does not fail. *)

Module Server.
Import Codec Posix FS.

Inductive call : Type :=
| Stat (p : PosixPath)
| Walk (p : PosixPath)
| OpenRead (p : PosixPath)
| OpenWrite (p : PosixPath)
| Convert (src : string).

Inductive json : Type :=
| JBool (b : bool)
| JStr (s : string).

(** What [wfile.write] gets: an encoded page, or [json.dumps] of a dict
    (its items in order). *)
Inductive payload : Type :=
| Html (page : string)
| JsonDumps (items : list (string * json)).

Inductive out_event : Type :=
| SendResponse (code : nat)
| SendHeader (keyword value : string)
| EndHeaders
| WfileWrite (b : payload)
| SendError (code : nat) (message : string).

Record world : Type := mkWorld {
  fs : node;
  calls : list call;
  wfile : list out_event
}.

(** The request: the raw request target, the [Content-Length] header if
    there is one (a Latin-1 string, one byte per character), the bytes
    the client sends after the headers before it stops, and the size of
    the largest byte string the allocator grants while the request is
    served. *)
Record request : Type := mkRequestOn {
  path : string;
  content_length : option string;
  rfile : string;
  memory : Z
}.

(** A request on a machine with a gigabyte to spare. *)
Definition mkRequest (path : string) (content_length : option string)
           (rfile : string) : request :=
  mkRequestOn path content_length rfile 1073741824.

Definition M (A : Type) : Type := world -> res A * world.

Definition ret {A} (a : A) : M A := fun w => (Ok a, w).

Definition bind {A B} (m : M A) (k : A -> M B) : M B :=
  fun w =>
    match m w with
    | (Ok a, w') => k a w'
    | (Raise e, w') => (Raise e, w')
    end.

Definition raise {A} (e : exn) : M A := fun w => (Raise e, w).

(** [try: body / except Exception as e: handler(e)]; every exception of
    the model is an [Exception]. *)
Definition try_except {A} (body : M A) (handler : exn -> M A) : M A :=
  fun w =>
    match body w with
    | (Ok a, w') => (Ok a, w')
    | (Raise e, w') => handler e w'
    end.

Definition lift {A} (r : res A) : M A := fun w => (r, w).

Declare Scope monad_scope.
Delimit Scope monad_scope with monad.
Notation "x <- m ;; k" := (bind m (fun x => k))
  (at level 61, m at next level, right associativity) : monad_scope.
Notation "m ;; k" := (bind m (fun _ => k))
  (at level 61, right associativity) : monad_scope.
Local Open Scope monad_scope.

Definition log_call (c : call) : M unit :=
  fun w => (Ok tt, mkWorld (fs w) (calls w ++ [c])%list (wfile w)).

Definition emit (o : out_event) : M unit :=
  fun w => (Ok tt, mkWorld (fs w) (calls w) (wfile w ++ [o])%list).

Definition send_response (code : nat) : M unit := emit (SendResponse code).
Definition send_header (k v : string) : M unit := emit (SendHeader k v).
Definition end_headers : M unit := emit EndHeaders.
Definition wfile_write (b : payload) : M unit := emit (WfileWrite b).

(** [send_error(code, message)]: the status line, which ends with the
    message, is encoded as Latin-1 before anything is written; a message
    with a character outside Latin-1 makes that raise. *)
Definition send_error (code : nat) (message : string) : M unit :=
  if latin1_ok message then emit (SendError code message)
  else raise (UnicodeEncodeError "latin-1" message).

Definition path_exists (p : PosixPath) : M bool :=
  log_call (Stat p) ;;
  fun w => (exists_ (fs w) p, w).

Definition open_read (p : PosixPath) : M string :=
  log_call (OpenRead p) ;;
  fun w => (read_text (fs w) p, w).

Definition open_write (p : PosixPath) (content : string) : M unit :=
  log_call (OpenWrite p) ;;
  fun w =>
    match write_text (fs w) p content with
    | Ok t' => (Ok tt, mkWorld t' (calls w) (wfile w))
    | Raise e => (Raise e, w)
    end.

(** The white space [int()] skips in a Latin-1 string: the six ASCII
    characters of C's [isspace], NEL and the no-break space. *)
Definition int_space (c : ascii) : bool :=
  in_range c 9 13 || in_range c 32 32 || in_range c 133 133
  || in_range c 160 160.

Fixpoint lstrip_int_space (s : string) : string :=
  match s with
  | EmptyString => EmptyString
  | String c s' => if int_space c then lstrip_int_space s' else s
  end.

Definition digit (c : ascii) : option Z :=
  if in_range c 48 57 then Some (Z.of_N (byte c) - 48)%Z else None.

Inductive scan_state : Type :=
| AtStart
| AfterDigit
| AfterUnderscore.

(** The run of digits of a literal: single underscores between digits
    are passed over, a leading, doubled or trailing one is an error.
    The result is the value, the number of digits and what follows. *)
Fixpoint scan_digits (acc : Z) (count : nat) (st : scan_state) (s : string)
  : option (Z * nat * string) :=
  match s with
  | EmptyString =>
      match st with
      | AfterDigit => Some (acc, count, EmptyString)
      | _ => None
      end
  | String c s' =>
      match digit c with
      | Some d => scan_digits (10 * acc + d)%Z (S count) AfterDigit s'
      | None =>
          match st with
          | AfterDigit =>
              if Ascii.eqb c "_" then scan_digits acc count AfterUnderscore s'
              else Some (acc, count, s)
          | _ => None
          end
      end
  end.

Definition MAX_STR_DIGITS : nat := 4300.

(** [int(x)] for a header value: [None] (no such header) is a
    [TypeError]; a string is a base-10 literal with optional sign and
    surrounding white space, of at most 4300 digits. *)
Definition py_int (x : option string) : res Z :=
  match x with
  | None => Raise NoneToInt
  | Some s =>
      let s1 := lstrip_int_space s in
      let '(sign, s2) :=
        match s1 with
        | String c r =>
            if Ascii.eqb c "-" then ((-1)%Z, r)
            else if Ascii.eqb c "+" then (1%Z, r)
            else (1%Z, s1)
        | EmptyString => (1%Z, s1)
        end in
      match scan_digits 0 0 AtStart s2 with
      | None => Raise (InvalidLiteral s)
      | Some (v, k, rest) =>
          if Nat.ltb MAX_STR_DIGITS k then Raise (TooManyDigits k)
          else
            match lstrip_int_space rest with
            | EmptyString => Ok (sign * v)%Z
            | String _ _ => Raise (InvalidLiteral s)
            end
      end
  end.

Fixpoint take (n : nat) (s : string) : string :=
  match n, s with
  | O, _ => EmptyString
  | S _, EmptyString => EmptyString
  | S k, String c s' => String c (take k s')
  end.

(** [rfile.read(n)] of the buffered reader: [n] must fit a C index and
    be -1 or more; -1 reads to the end; a byte string of [n] bytes is
    allocated before the read; with fewer than [n] bytes before the end
    the read returns them all. *)
Definition rfile_read (self : request) (n : Z) : res string :=
  if (n <? - 2 ^ 63)%Z || (2 ^ 63 <=? n)%Z then Raise IndexOverflow
  else if (n <? -1)%Z then Raise ReadLength
  else if (n =? -1)%Z then
    if (memory self <? Z.of_nat (String.length (rfile self)))%Z
    then Raise MemoryError else Ok (rfile self)
  else if (2 ^ 63 - 34 <? n)%Z then Raise BytesOverflow
  else if (memory self <? n)%Z then Raise MemoryError
  else Ok (take (Z.to_nat n) (rfile self)).

(** [list.sort()] on strings, which compares code points; on a total
    order every stable sort gives the same list. *)
Fixpoint insert_sorted (x : string) (l : list string) : list string :=
  match l with
  | [] => [x]
  | y :: l' => if str_leb x y then x :: l else y :: insert_sorted x l'
  end.

Definition sort (l : list string) : list string :=
  fold_right insert_sorted [] l.

Definition hidden (name : string) : bool := Str.startswith name ".".

(** [os.path.relpath(os.path.join(root, file), SCRIPT_DIR)] for the
    [root] of a walk started at [SCRIPT_DIR]. *)
Definition relpath (root : list string) (file : string) : string :=
  Str.join "/" (root ++ [file])%list.

(** The body of the loop of [serve_index], over the triples of the walk:
    [md_files] before it is sorted. *)
Definition collect_md (triples : list (list string * list string * list string))
  : list string :=
  flat_map
    (fun '(root, dirs, files) =>
       map (relpath root)
           (filter (fun file => Str.endswith file ".md" && negb (hidden file))
                   files))
    triples.

(** The File Lister: [md_files] of [serve_index] when [SCRIPT_DIR] names
    the directory [top]. *)
Definition lister (top : node) : list string :=
  sort (collect_md (os_walk (fun d => negb (hidden d)) [] top)).

Definition dq : string := String "034" EmptyString.
Definition quoted (s : string) : string := dq ++ s ++ dq.

(** The pages.  The style sheets and the fixed part of the editor script
    are constant text, left out here; what the f-strings interpolate is
    in place. *)
Definition index_item (f : string) : string :=
  "<li><span class=" ++ quoted "file-icon" ++ "></span><a href="
  ++ quoted ("/" ++ f) ++ ">" ++ f ++ "</a> <a href=" ++ quoted ("/edit/" ++ f)
  ++ " style=" ++ quoted "margin-left:10px;font-size:14px;" ++ ">[edit]</a></li>".

Definition index_html (md_files : list string) : string :=
  "<!DOCTYPE html><html><head><title>Markdown Files</title></head><body><h1>Markdown Files</h1><ul>"
  ++ String.concat "" (map index_item md_files)
  ++ "</ul></body></html>".

Definition viewer_html (filename html_content : string) : string :=
  "<!DOCTYPE html><html><head><title>" ++ filename ++ "</title></head><body><a href="
  ++ quoted "/" ++ " class=" ++ quoted "back-link" ++ ">Back to file list</a><div class="
  ++ quoted "filename" ++ ">" ++ filename ++ " <a href=" ++ quoted ("/edit/" ++ filename)
  ++ " style=" ++ quoted "margin-left:10px;" ++ ">[edit]</a></div>"
  ++ html_content ++ "</body></html>".

Definition editor_open : string := "<textarea id=" ++ quoted "editor" ++ ">".
Definition editor_close : string := "</textarea>".

Definition editor_head (filename : string) : string :=
  "<!DOCTYPE html><html><head><title>Edit: " ++ filename
  ++ "</title></head><body><div class=" ++ quoted "filename" ++ ">Editing: "
  ++ filename ++ "</div><a href=" ++ quoted ("/" ++ filename) ++ " class="
  ++ quoted "back-link" ++ ">View rendered</a>".

Definition editor_script (filename : string) : string :=
  "<script>const response = await fetch('/save/" ++ filename
  ++ "', { method: 'POST', body: editor.value });</script></body></html>".

Definition editor_html (filename content_escaped : string) : string :=
  editor_head filename
  ++ editor_open ++ content_escaped ++ editor_close
  ++ editor_script filename.

(** [content_escaped] of [serve_editor] *)
Definition escape_for_js (content : string) : string :=
  Str.replace
    (Str.replace (Str.replace content "\" "\\" None) "`" "\`" None)
    "$" "\$" None.

Section Handler.

(** The directory of the script. *)
Variable SCRIPT_DIR : PosixPath.
(** [str(e)] *)
Variable exn_str : exn -> string.
(** [markdown.markdown(text, extensions=[...])] *)
Variable markdown_markdown : string -> res string.
(** [urllib.parse.urlparse(target).path] and [urllib.parse.unquote] *)
Variable urlparse_path : string -> string.
Variable unquote : string -> string.
(** [SimpleHTTPRequestHandler.do_GET] *)
Variable super_do_GET : request -> M unit.

Definition convert (src : string) : M string :=
  log_call (Convert src) ;;
  lift (markdown_markdown src).

(** [os.walk(SCRIPT_DIR)] with the in-place filter of the loop body; a
    top that cannot be listed gives no triple. *)
Definition walk_script_dir : M (list (list string * list string * list string)) :=
  log_call (Walk SCRIPT_DIR) ;;
  fun w =>
    match lookup (fs w) [] SCRIPT_DIR with
    | inr q =>
        match get (fs w) q with
        | Some top => (Ok (os_walk (fun d => negb (hidden d)) [] top), w)
        | None => (Ok [], w)
        end
    | inl Null => (Raise NullByte, w)
    | inl (Err _) => (Ok [], w)
    end.

(** The page of the index holds names of the file system, which may
    carry undecodable bytes: [html.encode()] can raise, after the
    headers. *)
Definition serve_index : M unit :=
  triples <- walk_script_dir ;;
  let md_files := sort (collect_md triples) in
  let html := index_html md_files in
  send_response 200 ;;
  send_header "Content-type" "text/html; charset=utf-8" ;;
  end_headers ;;
  _ <- lift (encode_utf8 html) ;;
  wfile_write (Html html).

(** The page of the viewer is made of the name, which comes from the
    request line, and of the converted text of a file that was decoded
    strictly; neither holds a lone surrogate and [html.encode()] does
    not fail.  The same holds for the editor. *)
Definition serve_markdown (filename : string) : M unit :=
  let filepath := joinpath SCRIPT_DIR filename in
  present <- path_exists filepath ;;
  if negb present then
    send_error 404 ("File not found: " ++ filename)
  else
    try_except
      (content <- open_read filepath ;;
       html_content <- convert content ;;
       let html := viewer_html filename html_content in
       send_response 200 ;;
       send_header "Content-type" "text/html; charset=utf-8" ;;
       end_headers ;;
       wfile_write (Html html))
      (fun e => send_error 500 ("Error reading file: " ++ exn_str e)).

Definition serve_editor (filename : string) : M unit :=
  let filepath := joinpath SCRIPT_DIR filename in
  present <- path_exists filepath ;;
  if negb present then
    send_error 404 ("File not found: " ++ filename)
  else
    try_except
      (content <- open_read filepath ;;
       let content_escaped := escape_for_js content in
       let html := editor_html filename content_escaped in
       send_response 200 ;;
       send_header "Content-type" "text/html; charset=utf-8" ;;
       end_headers ;;
       wfile_write (Html html))
      (fun e => send_error 500 ("Error reading file: " ++ exn_str e)).

(** The security check of [save_markdown]: [true] when
    [filepath.resolve().relative_to(SCRIPT_DIR.resolve())] returns,
    [false] after the [ValueError] branch has sent the 403. *)
Definition security_check (filepath : PosixPath) : M bool :=
  try_except
    (resolved <- lift (resolve filepath) ;;
     root <- lift (resolve SCRIPT_DIR) ;;
     _ <- lift (relative_to resolved root) ;;
     ret true)
    (fun e =>
       if is_ValueError e then send_error 403 "Access denied" ;; ret false
       else raise e).

Definition save_markdown (self : request) (filename : string) : M unit :=
  let filepath := joinpath SCRIPT_DIR filename in
  inside <- security_check filepath ;;
  if negb inside then ret tt
  else
    try_except
      (n <- lift (py_int (content_length self)) ;;
       body <- lift (rfile_read self n) ;;
       content <- lift (decode_utf8 body) ;;
       open_write filepath content ;;
       send_response 200 ;;
       send_header "Content-type" "application/json" ;;
       end_headers ;;
       wfile_write (JsonDumps [("success", JBool true)]))
      (fun e =>
         send_response 500 ;;
         send_header "Content-type" "application/json" ;;
         end_headers ;;
         wfile_write (JsonDumps [("success", JBool false);
                                 ("error", JStr (exn_str e))])).

Definition do_GET (self : request) : M unit :=
  let parsed_path := urlparse_path (path self) in
  let path := unquote parsed_path in
  if String.eqb path "/" || String.eqb path "" then
    serve_index
  else if Str.startswith path "/edit/" && Str.endswith path ".md" then
    let filename := Str.replace path "/edit/" "" (Some 1) in
    serve_editor filename
  else if Str.endswith path ".md" then
    serve_markdown (Str.lstrip path "/")
  else
    super_do_GET self.

Definition do_POST (self : request) : M unit :=
  let parsed_path := urlparse_path (path self) in
  let path := unquote parsed_path in
  if Str.startswith path "/save/" && Str.endswith path ".md" then
    let filename := Str.replace path "/save/" "" (Some 1) in
    save_markdown self filename
  else
    ret tt.

End Handler.

End Server.

(** ** Library functions for the examples

    The handlers take [str(e)], the [urllib.parse] functions, the
    Markdown converter and the inherited static handler as parameters.
    The examples run them with the instances below, at inputs where the
    instances give what the library gives. *)

Module Lib.
Import Codec Posix FS Server.

Definition hex (c : ascii) : option N :=
  if in_range c 48 57 then Some (byte c - 48)%N
  else if in_range c 65 70 then Some (byte c - 55)%N
  else if in_range c 97 102 then Some (byte c - 87)%N
  else None.

(** Percent-decoding: [%XX] with two hexadecimal digits is the byte
    [XX], everything else stands for itself.  This is [unquote] when
    the escaped bytes are well-formed UTF-8. *)
Fixpoint unquote (s : string) : string :=
  match s with
  | EmptyString => EmptyString
  | String c s' =>
      if Ascii.eqb c "%" then
        match s' with
        | String h (String l s'') =>
            match hex h, hex l with
            | Some a, Some b =>
                String (ascii_of_N (16 * a + b)) (unquote s'')
            | _, _ => String c (unquote s')
            end
        | _ => String c (unquote s')
        end
      else String c (unquote s')
  end.

Fixpoint before (stop : string) (s : string) : string :=
  match s with
  | EmptyString => EmptyString
  | String c s' => if Str.mem c stop then EmptyString else String c (before stop s')
  end.

(** The path component of a request target in origin form ([/path],
    [/path?query]) that has no authority and no parameters: what precedes
    the query and the fragment. *)
Definition urlparse_path (target : string) : string := before "?#" target.

Definition errno_text (e : errno) : string :=
  match e with
  | ENOENT => "[Errno 2] No such file or directory"
  | ENXIO => "[Errno 6] No such device or address"
  | ENOTDIR => "[Errno 20] Not a directory"
  | EISDIR => "[Errno 21] Is a directory"
  | ENAMETOOLONG => "[Errno 36] File name too long"
  end.

(** [str(e)] when the operand is printable ASCII without quote or
    backslash, so that its [repr] is the operand between quotes.  The
    texts of the digit limit and of the codec errors carry counts and
    positions; they are not given here (the instance has the empty text
    for them) and no example reads them. *)
Definition exn_text (e : exn) : string :=
  match e with
  | NotRelative self other =>
      "'" ++ render self ++ "' is not in the subpath of '" ++ render other
      ++ "' OR one path is relative and the other is absolute."
  | NullByte => "embedded null byte"
  | InvalidLiteral s => "invalid literal for int() with base 10: '" ++ s ++ "'"
  | ReadLength => "read length must be non-negative or -1"
  | NoneToInt =>
      "int() argument must be a string, a bytes-like object or a real number, not 'NoneType'"
  | IndexOverflow => "cannot fit 'int' into an index-sized integer"
  | BytesOverflow => "byte string is too large"
  | MemoryError => ""
  | OSError e filename => errno_text e ++ ": '" ++ filename ++ "'"
  | Raised _ text => text
  | TooManyDigits _ | UnicodeDecodeError _ | UnicodeEncodeError _ _ => ""
  end.

(** A converter that wraps the text in one paragraph. *)
Definition paragraph (src : string) : res string := Ok ("<p>" ++ src ++ "</p>").

(** A static handler that finds nothing to serve. *)
Definition not_found (self : request) : M unit :=
  send_error 404 "File not found".

Definition GET (root : PosixPath) : request -> M unit :=
  do_GET root exn_text paragraph urlparse_path unquote not_found.

Definition POST (root : PosixPath) : request -> M unit :=
  do_POST root exn_text urlparse_path unquote.

Definition start (t : node) : world := mkWorld t [] [].

(** A tree for the examples: the server's directory [/srv/docs] with a
    hidden directory and a subdirectory, and a file next to it. *)
Definition docs : PosixPath := ["srv"; "docs"].

Definition tree : node :=
  Dir [("srv",
        Dir [("docs",
              Dir [("notes.md", File "old");
                   (".hidden", Dir [("b.md", File "x")]);
                   ("sub", Dir [("z.md", File "z"); ("a.txt", File "")]);
                   ("a.md", File "a`$");
                   ("d.md", Dir [])]);
             ("secret.md", File "top secret")])].

(** A text with a Windows line end: [a], CR, LF, [b]. *)
Definition crlf_text : string := String "a" (String CR (String LF "b")).

(** A directory that holds a socket called [s.md] beside a file. *)
Definition with_socket : node :=
  Dir [("a.md", File ""); ("s.md", Socket)].

(** A name of 300 bytes that ends with [.md]. *)
Definition long_name : string :=
  String.concat "" (repeat "a" 297) ++ ".md".

(** A name of one Chinese character (U+4E2D, three bytes of UTF-8) with
    the Markdown extension. *)
Definition zhong_md : string :=
  String "228" (String "184" (String "173" ".md")).

End Lib.

(** ** The specification's words

    The definitions of this part follow the specification, to be compared
    with the code's. *)

Module Spec.
Import Codec Posix FS Server.

(** A canonical path is inside the root when it is the root or a
    descendant of it. *)
Definition inside (root q : PosixPath) : Prop :=
  q = root \/ exists d ds, q = (root ++ d :: ds)%list.

(** [walk(tree)]: the relative path of every regular file of the tree,
    nothing left out. *)
Fixpoint walk (t : node) : list (list string) :=
  match t with
  | Dir es =>
      ((fix regular (l : list (string * node)) :=
          match l with
          | [] => []
          | (name, File _) :: l' => [name] :: regular l'
          | _ :: l' => regular l'
          end) es
       ++ (fix under (l : list (string * node)) :=
             match l with
             | [] => []
             | (name, ch) :: l' =>
                 (map (cons name) (walk ch) ++ under l')%list
             end) es)%list
  | _ => []
  end.

(** The relative path of every entry of the tree that is not a
    directory, regular file or not. *)
Fixpoint walk_entries (t : node) : list (list string) :=
  match t with
  | Dir es =>
      ((fix plain_entries (l : list (string * node)) :=
          match l with
          | [] => []
          | (name, Dir _) :: l' => plain_entries l'
          | (name, _) :: l' => [name] :: plain_entries l'
          end) es
       ++ (fix under (l : list (string * node)) :=
             match l with
             | [] => []
             | (name, ch) :: l' =>
                 (map (cons name) (walk_entries ch) ++ under l')%list
             end) es)%list
  | _ => []
  end.

(** No part of the path begins with a dot and its name ends with the
    Markdown extension. *)
Definition is_markdown_and_not_hidden (p : list string) : bool :=
  forallb (fun c => negb (Str.startswith c ".")) p
  && Str.endswith (last p "") ".md".

(** [sorted(filter(is_markdown_and_not_hidden, walk(tree)))] *)
Definition lister_spec (t : node) : list string :=
  sort (map (Str.join "/") (filter is_markdown_and_not_hidden (walk t))).

(** The tree holds regular files and directories only. *)
Fixpoint regular_tree (t : node) : bool :=
  match t with
  | File _ => true
  | Dir es =>
      (fix all (l : list (string * node)) :=
         match l with
         | [] => true
         | (_, ch) :: l' => regular_tree ch && all l'
         end) es
  | Socket => false
  end.

(** Un-escaping: a backslash makes the character after it literal. *)
Fixpoint unescape (s : string) : string :=
  match s with
  | EmptyString => EmptyString
  | String c s' =>
      if Ascii.eqb c "\" then
        match s' with
        | EmptyString => String c EmptyString
        | String c' s'' => String c' (unescape s'')
        end
      else String c (unescape s')
  end.

(** The three characters the editor page escapes. *)
Definition special (c : ascii) : bool :=
  Ascii.eqb c "\" || Ascii.eqb c "`" || Ascii.eqb c "$".

Definition escape_char (c : ascii) : string :=
  if special c then String "\" (String c EmptyString) else String c EmptyString.

(** Ascending order of strings, code point by code point. *)
Definition le (a b : string) : Prop := str_leb a b = true.

(** The two responses of the save endpoint. *)
Definition json_success : list out_event :=
  [SendResponse 200; SendHeader "Content-type" "application/json";
   EndHeaders; WfileWrite (JsonDumps [("success", JBool true)])].

Definition json_failure (message : string) : list out_event :=
  [SendResponse 500; SendHeader "Content-type" "application/json";
   EndHeaders;
   WfileWrite (JsonDumps [("success", JBool false); ("error", JStr message)])].

(** The world after the 403 of the security check: the tree and the log
    of calls as they were, one error response more. *)
Definition denied (w : world) : world :=
  mkWorld (fs w) (calls w) (wfile w ++ [SendError 403 "Access denied"])%list.

End Spec.

(** ** Observations on a run

    Vocabulary for what a handler leaves behind: the kind of a logged
    call, the shape of what was written to the client, the count of the
    characters the editor page escapes. *)

Module Obs.
Import Codec Posix FS Server.

Definition is_write (c : call) : bool :=
  match c with
  | OpenWrite _ => true
  | _ => false
  end.

(** One whole response: an error page sent by [send_error], or a status
    line, the content type, the end of the headers and one body. *)
Definition complete_response (resp : list out_event) : Prop :=
  (exists code message, resp = [SendError code message])
  \/ (exists code ctype body,
        resp = [SendResponse code; SendHeader "Content-type" ctype;
                EndHeaders; WfileWrite body]).

(** The page response of the three GET handlers. *)
Definition page (html : string) : list out_event :=
  [SendResponse 200; SendHeader "Content-type" "text/html; charset=utf-8";
   EndHeaders; WfileWrite (Html html)].

(** The headers of a page, without its body. *)
Definition page_headers : list out_event :=
  [SendResponse 200; SendHeader "Content-type" "text/html; charset=utf-8";
   EndHeaders].

(** Every run of a GET handler: the tree untouched and some calls none of
    which opens a file for writing. *)
Definition get_shape (r : res unit * world) (w : world) : Prop :=
  exists cs out,
    snd r = mkWorld (fs w) (calls w ++ cs)%list (wfile w ++ out)%list
    /\ filter is_write cs = [].

(** A run that returns normally after one whole response. *)
Definition answered (r : res unit * world) (w : world) : Prop :=
  fst r = Ok tt
  /\ exists resp,
      wfile (snd r) = (wfile w ++ resp)%list /\ complete_response resp.

(** A run that raises with nothing written to the client. *)
Definition raised_silent (r : res unit * world) (w : world) : Prop :=
  (exists e, fst r = Raise e) /\ wfile (snd r) = wfile w.

(** A run that raises after the headers of a page, before its body. *)
Definition raised_after_headers (r : res unit * world) (w : world) : Prop :=
  (exists e, fst r = Raise e)
  /\ wfile (snd r) = (wfile w ++ page_headers)%list.

(** A run that leaves the tree alone and opens nothing for writing. *)
Definition read_only (r : res unit * world) (w : world) : Prop :=
  fs (snd r) = fs w
  /\ filter is_write (calls (snd r)) = filter is_write (calls w).

(** The body could not be had: the length, the read or the decoding
    raised [e]. *)
Definition no_body (self : request) (e : exn) : Prop :=
  py_int (content_length self) = Raise e
  \/ (exists n, py_int (content_length self) = Ok n
                /\ rfile_read self n = Raise e)
  \/ (exists n body, py_int (content_length self) = Ok n
                     /\ rfile_read self n = Ok body
                     /\ decode_utf8 body = Raise e).

(** There is a regular file with content [d] at the canonical path [p]. *)
Definition file_at (t : node) (p : list string) (d : string) : Prop :=
  get t p = Some (File d).

Fixpoint count_special (s : string) : nat :=
  match s with
  | EmptyString => 0
  | String c s' =>
      (if Ascii.eqb c "\" || Ascii.eqb c "`" || Ascii.eqb c "$" then 1 else 0)
      + count_special s'
  end.

(** No part of a path is [..]. *)
Definition plain (parts : list string) : bool :=
  forallb (fun c => negb (String.eqb c "..")) parts.

End Obs.

(** * Properties *)

(** ** Strings *)

Module StrFacts.
Import Str.


Lemma append_assoc (a b c : string) : (a ++ b) ++ c = a ++ (b ++ c).
Proof. induction a; simpl; congruence. Qed.

Lemma length_append (a b : string) :
  String.length (a ++ b) = String.length a + String.length b.
Proof. induction a; simpl; congruence. Qed.

Lemma startswith_iff (s p : string) :
  startswith s p = true <-> exists r, s = p ++ r.
Proof.
  unfold startswith. revert s. induction p as [|c p IH]; intros s.
  - destruct s; simpl; split; eauto.
  - destruct s as [|d s]; simpl.
    + split; [discriminate | intros [r H]; discriminate].
    + destruct (ascii_dec c d) as [->|Hne].
      * rewrite IH. split; intros [r H]; exists r; congruence.
      * split; [discriminate | intros [r H]; congruence].
Qed.

Lemma endswith_iff (s suf : string) :
  endswith s suf = true <-> exists p, s = p ++ suf.
Proof.
  induction s as [|c s IH]; cbn [endswith].
  - rewrite orb_false_r. split.
    + intros H. apply String.eqb_eq in H. subst. exists "". reflexivity.
    + intros [p H]. destruct p; simpl in H; [subst; reflexivity | discriminate].
  - rewrite orb_true_iff, IH, String.eqb_eq. split.
    + intros [H | [p H]].
      * exists "". simpl. congruence.
      * exists (String c p). simpl. congruence.
    + intros [p H]. destruct p as [|d p]; simpl in H.
      * left. congruence.
      * right. exists p. congruence.
Qed.

Lemma drop_append (p r : string) : drop (String.length p) (p ++ r) = r.
Proof. induction p; simpl; auto. Qed.

Lemma replace_scan_exhausted (old new : string) (k : nat) (s : string) :
  replace_scan old new (Some 0) k s = drop k s.
Proof.
  revert k. induction s as [|c s IH]; intros k.
  - destruct k; reflexivity.
  - destruct k; simpl.
    + rewrite IH. reflexivity.
    + apply IH.
Qed.

(** Removing a leading occurrence with [count = 1] drops the prefix. *)
Lemma replace_prefix_once (s p : string) :
  p <> "" -> startswith s p = true ->
  replace s p "" (Some 1) = drop (String.length p) s.
Proof.
  intros Hp Hs. unfold startswith in Hs.
  destruct p as [|c p]; [congruence|]. unfold replace.
  destruct s as [|d s]; [discriminate|].
  cbn [replace_scan may_replace andb used_one pred String.length].
  rewrite Hs. cbn [append]. rewrite replace_scan_exhausted. reflexivity.
Qed.

Lemma subst_append (f : ascii -> string) (a b : string) :
  subst f (a ++ b) = subst f a ++ subst f b.
Proof.
  induction a as [|c a IH]; simpl; [reflexivity|].
  rewrite IH, append_assoc. reflexivity.
Qed.

Lemma subst_subst (f g : ascii -> string) (s : string) :
  subst f (subst g s) = subst (fun c => subst f (g c)) s.
Proof.
  induction s as [|c s IH]; simpl; [reflexivity|].
  rewrite subst_append, IH. reflexivity.
Qed.

Lemma subst_ext (f g : ascii -> string) (s : string) :
  (forall c, f c = g c) -> subst f s = subst g s.
Proof. intros H. induction s; simpl; congruence. Qed.

(** A [replace] of every occurrence of a one-character pattern works
    character by character. *)
Lemma replace_char (s : string) (a : ascii) (new : string) :
  replace s (String a "") new None
  = subst (fun c => if Ascii.eqb c a then new else String c "") s.
Proof.
  unfold replace. induction s as [|c s IH]; [reflexivity|].
  cbn [replace_scan may_replace andb used_one pred String.length String.prefix subst].
  destruct (ascii_dec a c) as [->|Hne].
  - rewrite Ascii.eqb_refl.
    replace (String.prefix "" s) with true by (destruct s; reflexivity).
    rewrite IH. reflexivity.
  - replace (Ascii.eqb c a) with false
      by (symmetry; apply Ascii.eqb_neq; congruence).
    rewrite IH. reflexivity.
Qed.

End StrFacts.

(** ** The editor page's escaping *)

Module EscapeFacts.
Import Str StrFacts Server Spec.

Lemma escape_char_chain (c : ascii) :
  subst (fun c0 =>
           subst (fun c1 => if Ascii.eqb c1 "$" then "\$" else String c1 "")
                 (if Ascii.eqb c0 "`" then "\`" else String c0 ""))
        (if Ascii.eqb c "\" then "\\" else String c "")
  = escape_char c.
Proof.
  unfold escape_char, special.
  destruct (Ascii.eqb_spec c "\") as [->|H1]; [reflexivity|].
  destruct (Ascii.eqb_spec c "`") as [->|H2]; [reflexivity|].
  destruct (Ascii.eqb_spec c "$") as [->|H3]; [reflexivity|].
  cbn [subst append orb].
  apply Ascii.eqb_neq in H2, H3. rewrite H2. cbn [subst append].
  rewrite H3. reflexivity.
Qed.

Lemma escape_for_js_subst (content : string) :
  escape_for_js content = subst escape_char content.
Proof.
  unfold escape_for_js. rewrite !replace_char, !subst_subst.
  apply subst_ext, escape_char_chain.
Qed.



End EscapeFacts.

(** ** The router *)

Module RouterFacts.
Import Str StrFacts Posix FS Server.

Lemma md_suffix_not_root (s : string) :
  endswith s ".md" = true -> String.eqb s "/" || String.eqb s "" = false.
Proof.
  intros H.
  destruct (String.eqb_spec s "/") as [->|_]; [discriminate H|].
  destruct (String.eqb_spec s "") as [->|_]; [discriminate H|].
  reflexivity.
Qed.

Section Routes.
Variable SCRIPT_DIR : PosixPath.
Variable exn_str : exn -> string.
Variable markdown_markdown : string -> res string.
Variable urlparse_path : string -> string.
Variable unquote : string -> string.
Variable super_do_GET : request -> M unit.

Local Abbreviation GET :=
  (do_GET SCRIPT_DIR exn_str markdown_markdown urlparse_path unquote
          super_do_GET).
Local Abbreviation POST := (do_POST SCRIPT_DIR exn_str urlparse_path unquote).

(** C6. The router percent-decodes the path component of the request
    target and tests the decoded path in sequence: [/] and the empty path
    give the index page; a path that starts with [/edit/] and ends with
    [.md] gives the editor page for what follows [/edit/], not the viewer;
    any other path that ends with [.md] gives the viewer page for the path
    without its leading slashes; every other GET goes to the inherited
    static handler; a POST whose path starts with [/save/] and ends with
    [.md] saves to what follows [/save/]. *)
Theorem do_GET_do_POST_dispatch (self : request) :
  let decoded := unquote (urlparse_path (path self)) in
  (decoded = "/" \/ decoded = "" -> GET self = serve_index SCRIPT_DIR)
  /\ (startswith decoded "/edit/" = true -> endswith decoded ".md" = true ->
      GET self = serve_editor SCRIPT_DIR exn_str (drop 6 decoded))
  /\ (startswith decoded "/edit/" = false -> endswith decoded ".md" = true ->
      GET self
      = serve_markdown SCRIPT_DIR exn_str markdown_markdown
                       (lstrip decoded "/"))
  /\ (decoded <> "/" -> decoded <> "" -> endswith decoded ".md" = false ->
      GET self = super_do_GET self)
  /\ (startswith decoded "/save/" = true -> endswith decoded ".md" = true ->
      POST self = save_markdown SCRIPT_DIR exn_str self (drop 6 decoded)).
Proof.
  intros decoded. unfold do_GET, do_POST. fold decoded.
  repeat split.
  - intros [H | H]; rewrite H; reflexivity.
  - intros Hp Hs. rewrite (md_suffix_not_root _ Hs), Hp, Hs. cbn [andb].
    rewrite replace_prefix_once; [reflexivity | discriminate | exact Hp].
  - intros Hp Hs. rewrite (md_suffix_not_root _ Hs), Hp, Hs. reflexivity.
  - intros H1 H2 Hs.
    apply String.eqb_neq in H1, H2. rewrite H1, H2, Hs, andb_false_r.
    reflexivity.
  - intros Hp Hs. rewrite Hp, Hs. cbn [andb].
    rewrite replace_prefix_once; [reflexivity | discriminate | exact Hp].
Qed.

(** C10. A POST whose decoded path does not both start with [/save/] and
    end with [.md] does nothing: the handler returns with the directory
    tree as it was, no call to the file system, and nothing written to the
    client, neither status line nor header nor body. *)
Theorem do_POST_unmatched_no_action (self : request) (w : world) :
  startswith (unquote (urlparse_path (path self))) "/save/"
  && endswith (unquote (urlparse_path (path self))) ".md" = false ->
  POST self w = (Ok tt, w).
Proof.
  intros H. unfold do_POST. rewrite H. reflexivity.
Qed.

End Routes.

End RouterFacts.

(** ** The security check *)

Module GuardFacts.
Import Str StrFacts Codec Posix FS Server Spec.

Lemma inside_iff (root q : PosixPath) :
  inside root q <-> exists r, q = (root ++ r)%list.
Proof.
  unfold inside. split.
  - intros [-> | [d [ds ->]]].
    + exists []. rewrite app_nil_r. reflexivity.
    + eauto.
  - intros [[|d ds] ->].
    + left. rewrite app_nil_r. reflexivity.
    + right. eauto.
Qed.

Lemma below_ok (q root r : PosixPath) :
  below q root = Some r <-> q = (root ++ r)%list.
Proof.
  revert q. induction root as [|o root IH]; intros q; cbn [below app].
  - split; [intros [= ->]; reflexivity | intros ->; reflexivity].
  - destruct q as [|s q]; [split; discriminate|].
    destruct (String.eqb_spec s o) as [->|Hne].
    + rewrite IH. split; [intros ->; reflexivity | intros [= H]; exact H].
    + split; [discriminate | intros [= H _]; congruence].
Qed.

Lemma relative_to_ok (q root r : PosixPath) :
  relative_to q root = Ok r <-> q = (root ++ r)%list.
Proof.
  unfold relative_to. rewrite <- below_ok.
  destruct (below q root); split; congruence.
Qed.

Lemma relative_to_inside (q root : PosixPath) :
  inside root q -> exists r, relative_to q root = Ok r.
Proof.
  intros H. apply inside_iff in H. destruct H as [r H].
  exists r. apply relative_to_ok. exact H.
Qed.

Lemma relative_to_outside (q root : PosixPath) :
  ~ inside root q -> relative_to q root = Raise (NotRelative q root).
Proof.
  intros H. unfold relative_to. destruct (below q root) as [r|] eqn:E;
    [|reflexivity].
  exfalso. apply H, inside_iff. exists r. apply below_ok. exact E.
Qed.

(** The check passes when no part holds a NUL byte and the canonical
    path is inside the canonical root, and answers 403 otherwise. *)
Lemma security_check_cases (root filepath : PosixPath) (w : world) :
  (has_nul filepath = false /\ has_nul root = false
   /\ inside (canonical root) (canonical filepath)
   /\ security_check root filepath w = (Ok true, w))
  \/ ((has_nul filepath = true \/ has_nul root = true
       \/ ~ inside (canonical root) (canonical filepath))
      /\ security_check root filepath w = (Ok false, denied w)).
Proof.
  unfold security_check, try_except, bind, lift, ret, resolve.
  destruct (has_nul filepath) eqn:Nf; [right; split; [auto | reflexivity]|].
  destruct (has_nul root) eqn:Nr; [right; split; [auto | reflexivity]|].
  destruct (relative_to (canonical filepath) (canonical root)) as [r|e] eqn:E.
  - left. repeat (split; [reflexivity|]). split; [|reflexivity].
    apply inside_iff. exists r. apply relative_to_ok. exact E.
  - assert (N : ~ inside (canonical root) (canonical filepath)).
    { intros I. destruct (relative_to_inside _ _ I) as [r H]. congruence. }
    right. split; [auto|].
    rewrite (relative_to_outside _ _ N) in E. injection E as <-. reflexivity.
Qed.

Lemma security_check_pass (root filepath : PosixPath) (w : world) :
  has_nul filepath = false -> has_nul root = false ->
  inside (canonical root) (canonical filepath) ->
  security_check root filepath w = (Ok true, w).
Proof.
  intros Nf Nr I.
  destruct (security_check_cases root filepath w)
    as [[_ [_ [_ E]]]|[[H|[H|H]] _]]; [exact E|congruence|congruence|contradiction].
Qed.

Lemma security_check_deny (root filepath : PosixPath) (w : world) :
  ~ inside (canonical root) (canonical filepath) ->
  security_check root filepath w = (Ok false, denied w).
Proof.
  intros H. destruct (security_check_cases root filepath w)
    as [[_ [_ [I _]]]|[_ E]]; [contradiction | exact E].
Qed.

Lemma canonical_app (a b : PosixPath) :
  canonical (a ++ b)%list = fold_left realpath_step b (canonical a).
Proof. unfold canonical. apply fold_left_app. Qed.

Lemma parent_not_inside (R : PosixPath) (name : string) :
  R <> [] -> last R "" <> name ->
  ~ inside R (removelast R ++ [name])%list.
Proof.
  intros HR Hlast H. apply inside_iff in H. destruct H as [r H].
  pose proof (app_removelast_last "" HR) as HRr.
  assert (Hlen : length r = 0).
  { apply (f_equal (@length string)) in H.
    apply (f_equal (@length string)) in HRr.
    rewrite !length_app in *. cbn [length] in *. lia. }
  destruct r; [|discriminate]. rewrite app_nil_r in H.
  rewrite HRr in H at 2. apply app_inj_tail in H. destruct H as [_ H].
  congruence.
Qed.

(** C1. On a tree without symbolic links, where the canonical form of a
    path is its lexical one, the security check of [save_markdown] lets
    a path through exactly when no part of the joined path or of the
    root holds a NUL byte and the canonical form of the root joined with
    the path is the canonical root or a descendant of it; otherwise it
    answers 403 "Access denied".  For [../outside.md] it answers 403
    whenever the canonical root is not the file system root and is not
    itself called [outside.md]. *)
Theorem security_check_iff_inside (root : PosixPath) (p : string) (w : world) :
  (security_check root (joinpath root p) w = (Ok true, w)
   <-> has_nul (joinpath root p) = false /\ has_nul root = false
       /\ inside (canonical root) (canonical (joinpath root p)))
  /\ (security_check root (joinpath root p) w = (Ok false, denied w)
      <-> ~ (has_nul (joinpath root p) = false /\ has_nul root = false
             /\ inside (canonical root) (canonical (joinpath root p))))
  /\ (canonical root <> [] -> last (canonical root) "" <> "outside.md" ->
      security_check root (joinpath root "../outside.md") w
      = (Ok false, denied w)).
Proof.
  split; [|split].
  - destruct (security_check_cases root (joinpath root p) w)
      as [[Nf [Nr [I E]]]|[H E]]; rewrite E; split; auto; try discriminate.
    intros [Nf [Nr I]]. destruct H as [H|[H|H]]; [congruence|congruence|contradiction].
  - destruct (security_check_cases root (joinpath root p) w)
      as [[Nf [Nr [I E]]]|[H E]]; rewrite E; split; auto; try discriminate.
    + intros N. exfalso. apply N. auto.
    + intros _ [Nf [Nr I]].
      destruct H as [H|[H|H]]; [congruence|congruence|contradiction].
  - intros HR Hlast. apply security_check_deny.
    change (joinpath root "../outside.md") with (root ++ [".."; "outside.md"])%list.
    rewrite canonical_app. cbn [fold_left realpath_step String.eqb]. cbn.
    apply parent_not_inside; assumption.
Qed.

End GuardFacts.

(** ** The directory tree *)

Module FSFacts.
Import Str StrFacts Codec Posix FS Spec.

Lemma assoc_put_same (c : string) (v : node) (es : list (string * node)) :
  assoc c (put_entry c v es) = Some v.
Proof.
  induction es as [|[n w] es IH]; cbn [put_entry assoc].
  - rewrite String.eqb_refl. reflexivity.
  - destruct (String.eqb n c) eqn:E; cbn [assoc]; rewrite E; auto.
Qed.

Lemma assoc_put_other (a c : string) (v : node) (es : list (string * node)) :
  a <> c -> assoc a (put_entry c v es) = assoc a es.
Proof.
  intros Hne. induction es as [|[n w] es IH]; cbn [put_entry assoc].
  - destruct (String.eqb_spec c a); [congruence | reflexivity].
  - destruct (String.eqb_spec n c) as [->|Hn]; cbn [assoc].
    + destruct (String.eqb_spec c a); [congruence | reflexivity].
    + destruct (String.eqb n a); auto.
Qed.

Lemma put_entry_same (c : string) (v : node) (es : list (string * node)) :
  assoc c es = Some v -> put_entry c v es = es.
Proof.
  induction es as [|[n w] es IH]; cbn [put_entry assoc]; [discriminate|].
  destruct (String.eqb n c); [intros [= ->]; reflexivity|].
  intros H. rewrite IH; auto.
Qed.

Lemma get_set (q : list string) (t t' v : node) :
  set t q v = Some t' -> get t' q = Some v.
Proof.
  revert t t'. induction q as [|c r IH]; intros t t'; cbn [set get].
  - intros [= ->]. reflexivity.
  - destruct t as [d|es|]; try discriminate.
    destruct (assoc c es) as [ch|] eqn:A.
    + destruct (set ch r v) as [ch'|] eqn:S; [|discriminate].
      intros [= <-]. rewrite assoc_put_same. eapply IH; eauto.
    + destruct r; [|discriminate]. intros [= <-].
      rewrite assoc_put_same. reflexivity.
Qed.

Lemma set_same (q : list string) (t v : node) :
  get t q = Some v -> set t q v = Some t.
Proof.
  revert t. induction q as [|c r IH]; intros t; cbn [set get].
  - congruence.
  - destruct t as [d|es|]; try discriminate.
    destruct (assoc c es) as [ch|] eqn:A; [|discriminate].
    intros G. rewrite (IH _ G), (put_entry_same _ _ _ A). reflexivity.
Qed.

Lemma set_over_file (q : list string) (t : node) (d c : string) :
  get t q = Some (File d) -> exists t', set t q (File c) = Some t'.
Proof.
  revert t. induction q as [|a r IH]; intros t; cbn [set get].
  - eauto.
  - destruct t as [d'|es|]; try discriminate.
    destruct (assoc a es) as [ch|] eqn:A; [|discriminate].
    intros G. destruct (IH _ G) as [ch' ->]. eauto.
Qed.

Lemma get_app (a b : list string) (t : node) :
  get t (a ++ b)%list
  = match get t a with
    | Some n => get n b
    | None => None
    end.
Proof.
  revert t. induction a as [|c a IH]; intros t; cbn [app get]; [reflexivity|].
  destruct t as [d|es|]; try reflexivity.
  destruct (assoc c es); [apply IH | reflexivity].
Qed.



(** Storing a regular file where no directory is changes no directory. *)
Lemma set_file_dirs (q : list string) (t t' : node) (c : string) :
  is_dir (get t q) = false -> set t q (File c) = Some t' ->
  forall p, is_dir (get t' p) = is_dir (get t p).
Proof.
  revert t t'. induction q as [|a r IH]; intros t t'; cbn [set get].
  - intros Hd [= <-] p. destruct t as [d|es|]; try discriminate Hd;
      destruct p; reflexivity.
  - destruct t as [d'|es|]; try discriminate.
    destruct (assoc a es) as [ch|] eqn:A.
    + intros Hd. destruct (set ch r (File c)) as [ch'|] eqn:S; [|discriminate].
      intros [= <-] [|b p]; [reflexivity|]. cbn [get].
      destruct (String.eqb_spec b a) as [->|Hne].
      * rewrite assoc_put_same, A. eapply IH; eauto.
      * rewrite assoc_put_other by exact Hne. reflexivity.
    + intros _. destruct r; [|discriminate].
      intros [= <-] [|b p]; [reflexivity|]. cbn [get].
      destruct (String.eqb_spec b a) as [->|Hne].
      * rewrite assoc_put_same, A. destruct p; reflexivity.
      * rewrite assoc_put_other by exact Hne. reflexivity.
Qed.

(** A new entry can be stored in every existing directory. *)
Lemma set_in_dir (parent : list string) (name : string) (t v : node) :
  is_dir (get t parent) = true ->
  exists t', set t (parent ++ [name])%list v = Some t'.
Proof.
  revert t. induction parent as [|a r IH]; intros t; cbn [app set get].
  - destruct t as [d|es|]; try discriminate. intros _.
    destruct (assoc name es); cbn [set]; eauto.
  - destruct t as [d|es|]; try discriminate.
    destruct (assoc a es) as [ch|]; [|discriminate].
    intros H. destruct (IH ch H) as [ch' ->]. eauto.
Qed.

Lemma walk_same_dirs (t t' : node) :
  (forall p, is_dir (get t' p) = is_dir (get t p)) ->
  forall rest cur,
    found (link_path_walk t' cur rest) = found (link_path_walk t cur rest).
Proof.
  intros H. induction rest as [|c r IH]; intros cur; cbn [link_path_walk];
    [reflexivity|].
  destruct (String.eqb c ".."); [apply IH|].
  destruct (Nat.ltb NAME_MAX (String.length c)); [reflexivity|].
  destruct r as [|c' r']; [reflexivity|].
  specialize (H (cur ++ [c])%list). unfold is_dir in H.
  destruct (get t' (cur ++ [c])%list) as [[?|?|]|],
           (get t (cur ++ [c])%list) as [[?|?|]|];
    try discriminate H; auto.
Qed.

Lemma namei_found (t : node) (cur rest : list string) :
  namei t cur rest
  = if has_nul rest then None
    else if Nat.leb PATH_MAX (String.length (render rest)) then None
    else found (link_path_walk t cur rest).
Proof.
  unfold namei, lookup. destruct (has_nul rest); [reflexivity|].
  destruct (Nat.leb _ _); [reflexivity|].
  destruct (link_path_walk t cur rest); reflexivity.
Qed.

Lemma namei_same_dirs (t t' : node) :
  (forall p, is_dir (get t' p) = is_dir (get t p)) ->
  forall rest cur, namei t' cur rest = namei t cur rest.
Proof.
  intros H rest cur. rewrite !namei_found, (walk_same_dirs t t' H).
  reflexivity.
Qed.

Lemma namei_lookup (t : node) (p q : list string) :
  namei t [] p = Some q <-> lookup t [] p = inr q.
Proof.
  unfold namei. destruct (lookup t [] p); split; congruence.
Qed.

Lemma namei_no_nul (t : node) (p q : list string) :
  namei t [] p = Some q -> has_nul p = false.
Proof.
  rewrite namei_found. destruct (has_nul p); [discriminate | reflexivity].
Qed.

(** The kernel's walk ends where the lexical fold says. *)
Lemma walk_fold (t : node) (rest cur q : list string) :
  link_path_walk t cur rest = inr q -> q = fold_left realpath_step rest cur.
Proof.
  revert cur. induction rest as [|c r IH]; intros cur;
    cbn [link_path_walk fold_left].
  - congruence.
  - unfold realpath_step at 2. destruct (String.eqb c ".."); [apply IH|].
    destruct (Nat.ltb NAME_MAX (String.length c)); [discriminate|].
    destruct r as [|c' r']; [cbn [fold_left]; congruence|].
    destruct (get t (cur ++ [c])%list) as [[?|?|]|]; try discriminate.
    apply IH.
Qed.

Lemma namei_canonical (t : node) (p q : PosixPath) :
  namei t [] p = Some q -> q = canonical p.
Proof.
  rewrite namei_found. destruct (has_nul p); [discriminate|].
  destruct (Nat.leb _ _); [discriminate|].
  destruct (link_path_walk t [] p) as [e|q'] eqn:W; [discriminate|].
  intros [= <-]. apply (walk_fold _ _ _ _ W).
Qed.

Lemma read_text_inv (t : node) (p : PosixPath) (content : string) :
  read_text t p = Ok content ->
  exists q d, lookup t [] p = inr q /\ get t q = Some (File d)
              /\ utf8_valid d = true /\ content = universal_newlines d.
Proof.
  unfold read_text, decode_utf8.
  destruct (lookup t [] p) as [f|q] eqn:L; [discriminate|].
  destruct (get t q) as [[d|es|]|] eqn:G; try discriminate.
  destruct (utf8_valid d) eqn:V; [|discriminate].
  intros [= <-]. exists q, d. repeat split; auto.
Qed.

Lemma read_ok_exists (t : node) (p : PosixPath) (content : string) :
  read_text t p = Ok content -> exists_ t p = Ok true.
Proof.
  intros H. destruct (read_text_inv _ _ _ H) as [q [d [L [G _]]]].
  unfold exists_. rewrite L, G. reflexivity.
Qed.

Lemma write_text_inv (t t' : node) (p : PosixPath) (content : string) :
  write_text t p content = Ok t' ->
  exists q, namei t [] p = Some q /\ is_dir (get t q) = false
            /\ set t q (File content) = Some t'.
Proof.
  unfold write_text. intros H.
  destruct (lookup t [] p) as [f|q] eqn:L; [discriminate|].
  exists q. split; [apply namei_lookup; exact L|].
  destruct (get t q) as [[d|es|]|] eqn:G; try discriminate;
    (destruct (set t q (File content)) as [x|] eqn:S; [|discriminate]);
    injection H as <-; auto.
Qed.

Lemma write_text_over_file (t : node) (p q : PosixPath) (old content : string) :
  namei t [] p = Some q -> get t q = Some (File old) ->
  exists t', write_text t p content = Ok t'
             /\ set t q (File content) = Some t'.
Proof.
  intros Hn Hg. apply namei_lookup in Hn. unfold write_text. rewrite Hn, Hg.
  destruct (set_over_file q t old content Hg) as [t' Hs].
  exists t'. rewrite Hs. auto.
Qed.

(** What a successful write leaves: the lookup of every path ends where
    it did, the file is there, and a text-mode read gives the text with
    its line ends made LF. *)
Lemma write_then_read (t t' : node) (p : PosixPath) (content : string) :
  write_text t p content = Ok t' -> utf8_valid content = true ->
  exists q, namei t [] p = Some q /\ namei t' [] p = Some q
            /\ get t' q = Some (File content)
            /\ (forall p', namei t' [] p' = namei t [] p')
            /\ read_text t' p = Ok (universal_newlines content).
Proof.
  intros Hw Hv. destruct (write_text_inv _ _ _ _ Hw) as [q [Hn [Hd Hs]]].
  pose proof (namei_same_dirs _ _ (set_file_dirs _ _ _ _ Hd Hs)) as Hsame.
  pose proof (get_set _ _ _ _ Hs) as Hg.
  assert (Hn' : namei t' [] p = Some q) by (rewrite Hsame; exact Hn).
  exists q. split; [exact Hn|]. split; [exact Hn'|].
  split; [exact Hg|]. split; [intros p'; apply Hsame|].
  apply namei_lookup in Hn'.
  unfold read_text, decode_utf8. rewrite Hn', Hg, Hv. reflexivity.
Qed.


Lemma universal_newlines_no_cr (s : string) :
  mem CR s = false -> universal_newlines s = s.
Proof.
  induction s as [|c s IH]; [reflexivity|]. cbn [mem universal_newlines].
  intros H. apply orb_false_iff in H. destruct H as [H1 H2].
  rewrite Ascii.eqb_sym in H1. rewrite H1, IH; auto.
Qed.

Lemma decode_utf8_valid (b content : string) :
  decode_utf8 b = Ok content -> content = b /\ utf8_valid content = true.
Proof.
  unfold decode_utf8. destruct (utf8_valid b) eqn:E; [|discriminate].
  intros [= <-]. auto.
Qed.

End FSFacts.

(** ** Saving *)

Module SaveFacts.
Import Str StrFacts Codec Posix FS Server Spec Obs GuardFacts FSFacts.

Ltac run_handler :=
  unfold save_markdown, serve_markdown, serve_editor, convert, open_write,
    open_read, path_exists, send_response, send_header, end_headers,
    wfile_write, emit, log_call, try_except, bind, lift, ret;
  cbn [fs calls wfile negb].

Lemma send_error_sent (code : nat) (message : string) (w : world) :
  latin1_ok message = true ->
  send_error code message w
  = (Ok tt, mkWorld (fs w) (calls w) (wfile w ++ [SendError code message])).
Proof. intros H. unfold send_error. rewrite H. reflexivity. Qed.

Lemma send_error_raises (code : nat) (message : string) (w : world) :
  latin1_ok message = false ->
  send_error code message w = (Raise (UnicodeEncodeError "latin-1" message), w).
Proof. intros H. unfold send_error. rewrite H. reflexivity. Qed.

Section Save.
Variable SCRIPT_DIR : PosixPath.
Variable exn_str : exn -> string.

Local Abbreviation SAVE := (save_markdown SCRIPT_DIR exn_str).

Lemma save_markdown_denied (self : request) (filename : string) (w : world) :
  security_check SCRIPT_DIR (joinpath SCRIPT_DIR filename) w
  = (Ok false, denied w) ->
  SAVE self filename w = (Ok tt, denied w).
Proof. intros H. unfold save_markdown, bind. rewrite H. reflexivity. Qed.

Lemma save_markdown_ok (self : request) (filename : string) (w : world)
      (n : Z) (body content : string) (t' : node) :
  security_check SCRIPT_DIR (joinpath SCRIPT_DIR filename) w = (Ok true, w) ->
  py_int (content_length self) = Ok n ->
  rfile_read self n = Ok body ->
  decode_utf8 body = Ok content ->
  write_text (fs w) (joinpath SCRIPT_DIR filename) content = Ok t' ->
  SAVE self filename w
  = (Ok tt, mkWorld t' (calls w ++ [OpenWrite (joinpath SCRIPT_DIR filename)])
                    (wfile w ++ json_success)).
Proof.
  intros Hc Hn Hr Hd Hw. unfold save_markdown at 1, bind at 1.
  rewrite Hc. run_handler.
  rewrite Hn, Hr, Hd, Hw. cbn [fs calls wfile]. unfold json_success.
  rewrite <- !app_assoc. reflexivity.
Qed.

Lemma save_markdown_write_fails (self : request) (filename : string)
      (w : world) (n : Z) (body content : string) (e : exn) :
  security_check SCRIPT_DIR (joinpath SCRIPT_DIR filename) w = (Ok true, w) ->
  py_int (content_length self) = Ok n ->
  rfile_read self n = Ok body ->
  decode_utf8 body = Ok content ->
  write_text (fs w) (joinpath SCRIPT_DIR filename) content = Raise e ->
  SAVE self filename w
  = (Ok tt, mkWorld (fs w) (calls w ++ [OpenWrite (joinpath SCRIPT_DIR filename)])
                    (wfile w ++ json_failure (exn_str e))).
Proof.
  intros Hc Hn Hr Hd Hw. unfold save_markdown at 1, bind at 1.
  rewrite Hc. run_handler.
  rewrite Hn, Hr, Hd, Hw. cbn [fs calls wfile]. unfold json_failure.
  rewrite <- !app_assoc. reflexivity.
Qed.

Lemma save_markdown_early_fails (self : request) (filename : string)
      (w : world) (e : exn) :
  security_check SCRIPT_DIR (joinpath SCRIPT_DIR filename) w = (Ok true, w) ->
  no_body self e ->
  SAVE self filename w
  = (Ok tt, mkWorld (fs w) (calls w) (wfile w ++ json_failure (exn_str e))).
Proof.
  intros Hc H. unfold save_markdown at 1, bind at 1.
  rewrite Hc. run_handler. unfold json_failure.
  destruct H as [Hn | [[n [Hn Hr]] | [n [body [Hn [Hr Hd]]]]]].
  - rewrite Hn. cbn [fs calls wfile]. rewrite <- !app_assoc. reflexivity.
  - rewrite Hn, Hr. cbn [fs calls wfile]. rewrite <- !app_assoc. reflexivity.
  - rewrite Hn, Hr, Hd. cbn [fs calls wfile].
    rewrite <- !app_assoc. reflexivity.
Qed.

(** The four ways a save can end. *)
Lemma save_markdown_cases (self : request) (filename : string) (w : world) :
  let filepath := joinpath SCRIPT_DIR filename in
  (security_check SCRIPT_DIR filepath w = (Ok false, denied w)
   /\ SAVE self filename w = (Ok tt, denied w))
  \/ (exists e,
         no_body self e
         /\ SAVE self filename w
            = (Ok tt, mkWorld (fs w) (calls w)
                              (wfile w ++ json_failure (exn_str e))))
  \/ (exists e,
         SAVE self filename w
         = (Ok tt, mkWorld (fs w) (calls w ++ [OpenWrite filepath])
                           (wfile w ++ json_failure (exn_str e))))
  \/ (inside (canonical SCRIPT_DIR) (canonical filepath)
      /\ exists n body content t',
          py_int (content_length self) = Ok n
          /\ rfile_read self n = Ok body
          /\ decode_utf8 body = Ok content
          /\ write_text (fs w) filepath content = Ok t'
          /\ SAVE self filename w
             = (Ok tt, mkWorld t' (calls w ++ [OpenWrite filepath])
                               (wfile w ++ json_success))).
Proof.
  intros filepath.
  destruct (security_check_cases SCRIPT_DIR filepath w)
    as [[_ [_ [I E]]]|[_ E]].
  - right.
    destruct (py_int (content_length self)) as [n|e] eqn:Hn.
    + destruct (rfile_read self n) as [body|e] eqn:Hr.
      * destruct (decode_utf8 body) as [content|e] eqn:Hd.
        -- destruct (write_text (fs w) filepath content) as [t'|e] eqn:Hw.
           ++ right. right. split; [exact I|]. exists n, body, content, t'.
              repeat (split; [first [assumption | reflexivity]|]).
              apply (save_markdown_ok self filename w n body content t');
                assumption.
           ++ right. left. exists e.
              apply (save_markdown_write_fails self filename w n body content e);
                assumption.
        -- left. exists e.
           assert (B : no_body self e) by (right; right; eauto).
           split; [exact B|]. apply save_markdown_early_fails; assumption.
      * left. exists e.
        assert (B : no_body self e) by (right; left; eauto).
        split; [exact B|]. apply save_markdown_early_fails; assumption.
    + left. exists e.
      assert (B : no_body self e) by (left; exact Hn).
      split; [exact B|]. apply save_markdown_early_fails; assumption.
  - left. split; [exact E|]. apply save_markdown_denied. exact E.
Qed.

(** C8. A save that passes the security check answers 200 with
    [{"success": true}] when the length header parses, the body is read
    and decodes and the file is written, and the tree then holds the new
    file; when one of the four steps raises it answers 500 with
    [{"success": false, "error": str(e)}] and the tree is as it was.  Both
    answers have the content type [application/json]. *)
Theorem save_markdown_json_response (self : request) (filename : string)
        (w : world) :
  let filepath := joinpath SCRIPT_DIR filename in
  security_check SCRIPT_DIR filepath w = (Ok true, w) ->
  (forall n body content t',
      py_int (content_length self) = Ok n ->
      rfile_read self n = Ok body ->
      decode_utf8 body = Ok content ->
      write_text (fs w) filepath content = Ok t' ->
      SAVE self filename w
      = (Ok tt, mkWorld t' (calls w ++ [OpenWrite filepath])
                        (wfile w ++ json_success)))
  /\ (forall e,
         py_int (content_length self) = Raise e ->
         SAVE self filename w
         = (Ok tt, mkWorld (fs w) (calls w)
                           (wfile w ++ json_failure (exn_str e))))
  /\ (forall n e,
         py_int (content_length self) = Ok n ->
         rfile_read self n = Raise e ->
         SAVE self filename w
         = (Ok tt, mkWorld (fs w) (calls w)
                           (wfile w ++ json_failure (exn_str e))))
  /\ (forall n body e,
         py_int (content_length self) = Ok n ->
         rfile_read self n = Ok body ->
         decode_utf8 body = Raise e ->
         SAVE self filename w
         = (Ok tt, mkWorld (fs w) (calls w)
                           (wfile w ++ json_failure (exn_str e))))
  /\ (forall n body content e,
         py_int (content_length self) = Ok n ->
         rfile_read self n = Ok body ->
         decode_utf8 body = Ok content ->
         write_text (fs w) filepath content = Raise e ->
         SAVE self filename w
         = (Ok tt, mkWorld (fs w) (calls w ++ [OpenWrite filepath])
                           (wfile w ++ json_failure (exn_str e)))).
Proof.
  intros filepath Hc. repeat split.
  - intros n body content t' Hn Hr Hd Hw.
    apply (save_markdown_ok self filename w n body content t'); assumption.
  - intros e Hn. apply save_markdown_early_fails; [exact Hc|]. left. exact Hn.
  - intros n e Hn Hr. apply save_markdown_early_fails; [exact Hc|].
    right. left. eauto.
  - intros n body e Hn Hr Hd. apply save_markdown_early_fails; [exact Hc|].
    right. right. eauto.
  - intros n body content e Hn Hr Hd Hw.
    apply (save_markdown_write_fails self filename w n body content e);
      assumption.
Qed.


(** X3. A save that passes the check, to a name that does not exist yet
    in a directory that does, creates the file when the body is read and
    decodes: the answer is the 200 JSON response, the new file holds the
    decoded body, the lookup of every path is what it was, and reading
    the file back gives the body with LF line ends. *)
Theorem save_creates_file (self : request) (filename : string) (w : world)
        (parent : list string) (name : string) (n : Z)
        (body content : string) :
  let filepath := joinpath SCRIPT_DIR filename in
  security_check SCRIPT_DIR filepath w = (Ok true, w) ->
  namei (fs w) [] filepath = Some (parent ++ [name])%list ->
  is_dir (get (fs w) parent) = true ->
  get (fs w) (parent ++ [name])%list = None ->
  py_int (content_length self) = Ok n ->
  rfile_read self n = Ok body ->
  decode_utf8 body = Ok content ->
  exists t',
    SAVE self filename w
    = (Ok tt, mkWorld t' (calls w ++ [OpenWrite filepath])
                      (wfile w ++ json_success))
    /\ file_at t' (parent ++ [name])%list content
    /\ (forall p, namei t' [] p = namei (fs w) [] p)
    /\ read_text t' filepath = Ok (universal_newlines content).
Proof.
  intros filepath Hc Hn Hdir Hnone Hi Hr Hd.
  destruct (set_in_dir parent name (fs w) (File content) Hdir) as [t' Hs].
  assert (Hw : write_text (fs w) filepath content = Ok t').
  { apply namei_lookup in Hn. unfold write_text.
    rewrite Hn, Hnone, Hs. reflexivity. }
  destruct (decode_utf8_valid _ _ Hd) as [_ Hv].
  destruct (write_then_read _ _ _ _ Hw Hv) as [q [Hq [_ [Hg [Hsame Hr']]]]].
  assert (q = (parent ++ [name])%list) by congruence. subst q.
  exists t'. split; [|split; [exact Hg|split; [exact Hsame|exact Hr']]].
  apply (save_markdown_ok self filename w n body content t'); assumption.
Qed.

(** X4. A save that passes the check and has its body, but whose target
    cannot be opened for writing, answers 500 with the JSON error that
    carries the text of the [OSError] and leaves the tree as it was: the
    error is that of the failed lookup (no such file, not a directory,
    name too long) when the joined path leads nowhere, "is a directory"
    when it leads to a directory, "no such device" when it leads to a
    socket. *)
Theorem save_unwritable_target_500 (self : request) (filename : string)
        (w : world) (n : Z) (body content : string) :
  let filepath := joinpath SCRIPT_DIR filename in
  let failed e :=
    (Ok tt, mkWorld (fs w) (calls w ++ [OpenWrite filepath])
              (wfile w ++ json_failure (exn_str (OSError e (render filepath))))) in
  security_check SCRIPT_DIR filepath w = (Ok true, w) ->
  py_int (content_length self) = Ok n ->
  rfile_read self n = Ok body ->
  decode_utf8 body = Ok content ->
  (forall e, lookup (fs w) [] filepath = inl (Err e) ->
             SAVE self filename w = failed e)
  /\ (forall q, lookup (fs w) [] filepath = inr q ->
                is_dir (get (fs w) q) = true ->
                SAVE self filename w = failed EISDIR)
  /\ (forall q, lookup (fs w) [] filepath = inr q ->
                get (fs w) q = Some Socket ->
                SAVE self filename w = failed ENXIO).
Proof.
  intros filepath failed Hc Hi Hr Hd. subst failed. cbv beta.
  split; [|split].
  - intros e Hl.
    apply (save_markdown_write_fails self filename w n body content);
      try assumption.
    fold filepath. unfold write_text. rewrite Hl. reflexivity.
  - intros q Hl Hdir.
    apply (save_markdown_write_fails self filename w n body content);
      try assumption.
    fold filepath. unfold write_text. rewrite Hl.
    destruct (get (fs w) q) as [[d|es|]|]; try discriminate Hdir. reflexivity.
  - intros q Hl Hs.
    apply (save_markdown_write_fails self filename w n body content);
      try assumption.
    fold filepath. unfold write_text. rewrite Hl, Hs. reflexivity.
Qed.

Variable urlparse_path : string -> string.
Variable unquote : string -> string.

Local Abbreviation POST := (do_POST SCRIPT_DIR exn_str urlparse_path unquote).



End Save.

End SaveFacts.

(** ** Saving and reading back *)

Module RoundTripFacts.
Import Str StrFacts Codec Posix FS Server Spec GuardFacts FSFacts SaveFacts.

Lemma security_check_any_world (root filepath : PosixPath) (w w2 : world) :
  security_check root filepath w = (Ok true, w) ->
  security_check root filepath w2 = (Ok true, w2).
Proof.
  intros H. destruct (security_check_cases root filepath w)
    as [[Nf [Nr [I _]]]|[_ E]].
  - apply security_check_pass; assumption.
  - rewrite E in H. discriminate H.
Qed.

(** C4. Saving to an existing regular file inside the root stores exactly
    the decoded body; reading the file back the way the viewer and the
    editor do gives the body with every CR LF and every lone CR turned
    into LF, hence the body itself when it has no carriage return; saving
    the same body again leaves the same tree. *)
Theorem save_then_read_back (SCRIPT_DIR : PosixPath) (exn_str : exn -> string)
        (self : request) (filename : string) (w : world) (q : PosixPath)
        (old : string) (n : Z) (body content : string) :
  let filepath := joinpath SCRIPT_DIR filename in
  security_check SCRIPT_DIR filepath w = (Ok true, w) ->
  namei (fs w) [] filepath = Some q ->
  get (fs w) q = Some (File old) ->
  py_int (content_length self) = Ok n ->
  rfile_read self n = Ok body ->
  decode_utf8 body = Ok content ->
  exists t',
    save_markdown SCRIPT_DIR exn_str self filename w
    = (Ok tt, mkWorld t' (calls w ++ [OpenWrite filepath])
                      (wfile w ++ json_success))
    /\ namei t' [] filepath = Some q
    /\ get t' q = Some (File body)
    /\ (forall cs out,
           open_read filepath (mkWorld t' cs out)
           = (Ok (universal_newlines body),
              mkWorld t' (cs ++ [OpenRead filepath]) out))
    /\ (mem CR body = false -> read_text t' filepath = Ok body)
    /\ (forall cs out,
           save_markdown SCRIPT_DIR exn_str self filename (mkWorld t' cs out)
           = (Ok tt, mkWorld t' (cs ++ [OpenWrite filepath])
                             (out ++ json_success))).
Proof.
  intros filepath Hc Hn Hg Hi Hr Hd.
  destruct (decode_utf8_valid _ _ Hd) as [-> Hv].
  destruct (write_text_over_file (fs w) filepath q old body Hn Hg)
    as [t' [Hw Hs]].
  destruct (write_then_read _ _ _ _ Hw Hv) as [q' [Hq [Hn' [Hg' [_ Hread]]]]].
  assert (q' = q) by congruence. subst q'.
  exists t'. repeat split.
  - apply (save_markdown_ok SCRIPT_DIR exn_str self filename w n body body t');
      assumption.
  - exact Hn'.
  - exact Hg'.
  - intros cs out. unfold open_read, log_call, bind. cbn [fs calls wfile].
    fold filepath. rewrite Hread. reflexivity.
  - intros Hcr. rewrite Hread, universal_newlines_no_cr; auto.
  - intros cs out.
    apply (save_markdown_ok SCRIPT_DIR exn_str self filename
             (mkWorld t' cs out) n body body t'); try assumption.
    + apply (security_check_any_world _ _ w). exact Hc.
    + cbn [fs]. fold filepath. apply namei_lookup in Hn'.
      unfold write_text. rewrite Hn', Hg', (set_same _ _ _ Hg').
      reflexivity.
Qed.

End RoundTripFacts.

(** ** The viewer and the editor *)

Module ViewFacts.
Import Str StrFacts Codec Posix FS Server Spec Obs GuardFacts FSFacts SaveFacts.

Lemma not_inside_by_relative_to (root q : PosixPath) (e : exn) :
  relative_to q root = Raise e -> ~ inside root q.
Proof.
  intros H I. destruct (relative_to_inside _ _ I) as [r E]. congruence.
Qed.

Section View.
Variable SCRIPT_DIR : PosixPath.
Variable exn_str : exn -> string.
Variable markdown_markdown : string -> res string.

Local Abbreviation VIEW :=
  (serve_markdown SCRIPT_DIR exn_str markdown_markdown).
Local Abbreviation EDIT := (serve_editor SCRIPT_DIR exn_str).

(** The two handlers up to the point where they part: the existence
    test and the read. *)
Lemma serve_markdown_exists_raises (filename : string) (w : world) (e : exn) :
  exists_ (fs w) (joinpath SCRIPT_DIR filename) = Raise e ->
  VIEW filename w
  = (Raise e, mkWorld (fs w) (calls w ++ [Stat (joinpath SCRIPT_DIR filename)])
                      (wfile w)).
Proof. intros H. run_handler. rewrite H. reflexivity. Qed.

Lemma serve_editor_exists_raises (filename : string) (w : world) (e : exn) :
  exists_ (fs w) (joinpath SCRIPT_DIR filename) = Raise e ->
  EDIT filename w
  = (Raise e, mkWorld (fs w) (calls w ++ [Stat (joinpath SCRIPT_DIR filename)])
                      (wfile w)).
Proof. intros H. run_handler. rewrite H. reflexivity. Qed.

Lemma serve_markdown_missing (filename : string) (w : world) :
  exists_ (fs w) (joinpath SCRIPT_DIR filename) = Ok false ->
  VIEW filename w
  = send_error 404 ("File not found: " ++ filename)
      (mkWorld (fs w) (calls w ++ [Stat (joinpath SCRIPT_DIR filename)])
               (wfile w)).
Proof. intros H. run_handler. rewrite H. reflexivity. Qed.

Lemma serve_editor_missing (filename : string) (w : world) :
  exists_ (fs w) (joinpath SCRIPT_DIR filename) = Ok false ->
  EDIT filename w
  = send_error 404 ("File not found: " ++ filename)
      (mkWorld (fs w) (calls w ++ [Stat (joinpath SCRIPT_DIR filename)])
               (wfile w)).
Proof. intros H. run_handler. rewrite H. reflexivity. Qed.

Lemma serve_markdown_read_fails (filename : string) (w : world) (e : exn) :
  exists_ (fs w) (joinpath SCRIPT_DIR filename) = Ok true ->
  read_text (fs w) (joinpath SCRIPT_DIR filename) = Raise e ->
  VIEW filename w
  = send_error 500 ("Error reading file: " ++ exn_str e)
      (mkWorld (fs w)
         (calls w ++ [Stat (joinpath SCRIPT_DIR filename);
                      OpenRead (joinpath SCRIPT_DIR filename)])
         (wfile w)).
Proof.
  intros Hx Hr. run_handler. rewrite Hx. cbn [negb fs calls wfile].
  rewrite Hr. cbn [fs calls wfile]. rewrite <- !app_assoc. reflexivity.
Qed.

Lemma serve_editor_read_fails (filename : string) (w : world) (e : exn) :
  exists_ (fs w) (joinpath SCRIPT_DIR filename) = Ok true ->
  read_text (fs w) (joinpath SCRIPT_DIR filename) = Raise e ->
  EDIT filename w
  = send_error 500 ("Error reading file: " ++ exn_str e)
      (mkWorld (fs w)
         (calls w ++ [Stat (joinpath SCRIPT_DIR filename);
                      OpenRead (joinpath SCRIPT_DIR filename)])
         (wfile w)).
Proof.
  intros Hx Hr. run_handler. rewrite Hx. cbn [negb fs calls wfile].
  rewrite Hr. cbn [fs calls wfile]. rewrite <- !app_assoc. reflexivity.
Qed.

Lemma serve_markdown_convert_fails (filename : string) (w : world)
      (content : string) (e : exn) :
  read_text (fs w) (joinpath SCRIPT_DIR filename) = Ok content ->
  markdown_markdown content = Raise e ->
  VIEW filename w
  = send_error 500 ("Error reading file: " ++ exn_str e)
      (mkWorld (fs w)
         (calls w ++ [Stat (joinpath SCRIPT_DIR filename);
                      OpenRead (joinpath SCRIPT_DIR filename); Convert content])
         (wfile w)).
Proof.
  intros Hr Hc. run_handler. rewrite (read_ok_exists _ _ _ Hr).
  cbn [negb fs calls wfile]. rewrite Hr. cbn [fs calls wfile].
  rewrite Hc. cbn [fs calls wfile]. rewrite <- !app_assoc. reflexivity.
Qed.

Lemma serve_markdown_ok (filename : string) (w : world)
      (content html : string) :
  read_text (fs w) (joinpath SCRIPT_DIR filename) = Ok content ->
  markdown_markdown content = Ok html ->
  VIEW filename w
  = (Ok tt,
     mkWorld (fs w)
       (calls w ++ [Stat (joinpath SCRIPT_DIR filename);
                    OpenRead (joinpath SCRIPT_DIR filename); Convert content])
       (wfile w ++ page (viewer_html filename html))).
Proof.
  intros Hr Hc. run_handler. rewrite (read_ok_exists _ _ _ Hr).
  cbn [negb fs calls wfile]. rewrite Hr. cbn [fs calls wfile].
  rewrite Hc. cbn [fs calls wfile]. unfold page.
  rewrite <- !app_assoc. reflexivity.
Qed.

Lemma serve_editor_ok (filename : string) (w : world) (content : string) :
  read_text (fs w) (joinpath SCRIPT_DIR filename) = Ok content ->
  EDIT filename w
  = (Ok tt,
     mkWorld (fs w)
       (calls w ++ [Stat (joinpath SCRIPT_DIR filename);
                    OpenRead (joinpath SCRIPT_DIR filename)])
       (wfile w ++ page (editor_html filename (escape_for_js content)))).
Proof.
  intros Hr. run_handler. rewrite (read_ok_exists _ _ _ Hr).
  cbn [negb fs calls wfile]. rewrite Hr. cbn [fs calls wfile]. unfold page.
  rewrite <- !app_assoc. reflexivity.
Qed.


End View.

(** C7. A missing file is not always answered: the 404 is sent with
    [send_error], which encodes its message as Latin-1, and after
    [Path.exists], which raises for a name that is too long.  With the
    server in [/srv/docs], a GET of [/%E4%B8%AD.md] (a Chinese
    character), and likewise of [/edit/%E4%B8%AD.md], names a file that
    does not exist and raises [UnicodeEncodeError] with nothing written
    to the client; a GET of a name of 300 bytes raises [OSError] from
    the existence test, again with nothing written. *)
Theorem missing_file_without_404 :
  let target := joinpath Lib.docs Lib.zhong_md in
  let viewed :=
    Lib.GET Lib.docs (mkRequest "/%E4%B8%AD.md" None "") (Lib.start Lib.tree) in
  let edited :=
    Lib.GET Lib.docs (mkRequest "/edit/%E4%B8%AD.md" None "")
            (Lib.start Lib.tree) in
  let long :=
    Lib.GET Lib.docs (mkRequest ("/" ++ Lib.long_name) None "")
            (Lib.start Lib.tree) in
  exists_ Lib.tree target = Ok false
  /\ fst viewed
     = Raise (UnicodeEncodeError "latin-1" ("File not found: " ++ Lib.zhong_md))
  /\ snd viewed = mkWorld Lib.tree [Stat target] []
  /\ fst edited
     = Raise (UnicodeEncodeError "latin-1" ("File not found: " ++ Lib.zhong_md))
  /\ snd edited = mkWorld Lib.tree [Stat target] []
  /\ fst long
     = Raise (OSError ENAMETOOLONG (render (joinpath Lib.docs Lib.long_name)))
  /\ wfile (snd long) = [].
Proof. cbv zeta. repeat split; vm_compute; reflexivity. Qed.

(** C2. The invariant does not hold for reads: [serve_editor] and
    [serve_markdown] open the joined path without the check that
    [save_markdown] makes.  With the server in [/srv/docs], a GET of
    [/edit/../secret.md], and likewise of [/../secret.md], opens
    [/srv/secret.md], which is outside the root, and sends its content
    to the client. *)
Theorem read_handlers_leave_root :
  let target := (Lib.docs ++ [".."; "secret.md"])%list in
  let edited :=
    snd (Lib.GET Lib.docs (mkRequest "/edit/../secret.md" None "")
                 (Lib.start Lib.tree)) in
  let viewed :=
    snd (Lib.GET Lib.docs (mkRequest "/../secret.md" None "")
                 (Lib.start Lib.tree)) in
  canonical target = ["srv"; "secret.md"]
  /\ ~ inside (canonical Lib.docs) (canonical target)
  /\ calls edited = [Stat target; OpenRead target]
  /\ wfile edited
     = [SendResponse 200; SendHeader "Content-type" "text/html; charset=utf-8";
        EndHeaders;
        WfileWrite (Html (editor_html "../secret.md" "top secret"))]
  /\ calls viewed = [Stat target; OpenRead target; Convert "top secret"]
  /\ wfile viewed
     = [SendResponse 200; SendHeader "Content-type" "text/html; charset=utf-8";
        EndHeaders;
        WfileWrite (Html (viewer_html "../secret.md" "<p>top secret</p>"))].
Proof.
  cbv zeta. split; [reflexivity|]. split.
  - eapply not_inside_by_relative_to. reflexivity.
  - repeat split; vm_compute; reflexivity.
Qed.

End ViewFacts.

(** ** The File Lister *)

Module ListerFacts.
Import Str StrFacts Codec Posix FS Server Spec.

Lemma filter_map_swap {A B} (f : B -> bool) (g : A -> B) (l : list A) :
  filter f (map g l) = map g (filter (fun x => f (g x)) l).
Proof.
  induction l as [|x l IH]; cbn [map filter]; [reflexivity|].
  destruct (f (g x)); cbn [map]; congruence.
Qed.

Lemma collect_md_app (a b : list (list string * list string * list string)) :
  collect_md (a ++ b) = (collect_md a ++ collect_md b)%list.
Proof. unfold collect_md. apply flat_map_app. Qed.

Lemma collect_md_cons (x : list string * list string * list string)
      (r : list (list string * list string * list string)) :
  collect_md (x :: r) = (collect_md [x] ++ collect_md r)%list.
Proof. apply (collect_md_app [x] r). Qed.

Lemma walk_entries_dir (es : list (string * node)) :
  walk_entries (Dir es)
  = (map (fun f => [f]) (file_names es)
     ++ flat_map (fun e => map (cons (fst e)) (walk_entries (snd e))) es)%list.
Proof.
  cbn [walk_entries]. f_equal.
  - induction es as [|[name ch] es IH]; [reflexivity|].
    destruct ch; cbn [file_names flat_map snd fst app map] in *;
      rewrite IH; reflexivity.
  - induction es as [|[name ch] es IH]; [reflexivity|].
    cbn [flat_map fst snd]. rewrite IH. reflexivity.
Qed.

Lemma walk_dir (es : list (string * node)) :
  walk (Dir es)
  = (flat_map (fun e => match snd e with File _ => [[fst e]] | _ => [] end) es
     ++ flat_map (fun e => map (cons (fst e)) (walk (snd e))) es)%list.
Proof.
  cbn [walk]. f_equal.
  - induction es as [|[name ch] es IH]; [reflexivity|].
    destruct ch; cbn [flat_map snd fst app] in *; rewrite IH; reflexivity.
  - induction es as [|[name ch] es IH]; [reflexivity|].
    cbn [flat_map fst snd]. rewrite IH. reflexivity.
Qed.

Lemma walk_entries_nonempty (t : node) :
  Forall (fun p => p <> []) (walk_entries t).
Proof.
  destruct t as [d|es|]; [constructor| |constructor].
  rewrite walk_entries_dir. apply Forall_app. split.
  - apply Forall_forall. intros p Hp. apply in_map_iff in Hp.
    destruct Hp as [f [<- _]]. discriminate.
  - apply Forall_forall. intros p Hp. apply in_flat_map in Hp.
    destruct Hp as [e [_ Hp]]. apply in_map_iff in Hp.
    destruct Hp as [p' [<- _]]. discriminate.
Qed.

(** On a tree of regular files and directories the two walks agree. *)
Lemma walk_entries_regular (t : node) :
  regular_tree t = true -> walk_entries t = walk t.
Proof.
  induction t as [d|es IH|] using node_ind_entries; intros R;
    [reflexivity| |reflexivity].
  rewrite walk_entries_dir, walk_dir. cbn [regular_tree] in R. f_equal.
  - clear IH. induction es as [|[name ch] es IHes]; [reflexivity|].
    apply andb_prop in R. destruct R as [Rc Re].
    unfold file_names in *. cbn [flat_map fst snd]. rewrite map_app, (IHes Re).
    destruct ch; [reflexivity|reflexivity|discriminate Rc].
  - induction IH as [|[name ch] es Hch _ IHes]; [reflexivity|].
    cbn [snd] in Hch. apply andb_prop in R. destruct R as [Rc Re].
    cbn [flat_map fst snd]. rewrite (Hch Rc), (IHes Re). reflexivity.
Qed.

Lemma last_cons_nonempty (name : string) (p : list string) :
  p <> [] -> last (name :: p) "" = last p "".
Proof. destruct p; [congruence | reflexivity]. Qed.

Lemma is_markdown_and_not_hidden_cons (name : string) (p : list string) :
  p <> [] ->
  is_markdown_and_not_hidden (name :: p)
  = negb (hidden name) && is_markdown_and_not_hidden p.
Proof.
  intros Hp. unfold is_markdown_and_not_hidden, hidden. cbn [forallb].
  rewrite (last_cons_nonempty name p Hp), andb_assoc. reflexivity.
Qed.

Lemma filter_none {A} (l : list A) : filter (fun _ => false) l = [].
Proof. induction l; auto. Qed.

Lemma filter_under (name : string) (l : list (list string)) :
  Forall (fun p => p <> []) l ->
  filter is_markdown_and_not_hidden (map (cons name) l)
  = if negb (hidden name)
    then map (cons name) (filter is_markdown_and_not_hidden l)
    else [].
Proof.
  intros Hne. rewrite filter_map_swap.
  rewrite (filter_ext_in _
             (fun p => negb (hidden name) && is_markdown_and_not_hidden p)).
  - destruct (negb (hidden name)); cbn [andb].
    + reflexivity.
    + rewrite filter_none. reflexivity.
  - intros p Hp. apply is_markdown_and_not_hidden_cons.
    rewrite Forall_forall in Hne. auto.
Qed.

Lemma join_under (root : list string) (name : string) (l : list (list string)) :
  map (fun p => Str.join "/" ((root ++ [name]) ++ p)%list) l
  = map (fun p => Str.join "/" (root ++ p)%list) (map (cons name) l).
Proof.
  rewrite map_map. apply map_ext. intros p. rewrite <- app_assoc. reflexivity.
Qed.

Lemma os_walk_dir (keep : string -> bool) (root : list string)
      (es : list (string * node)) :
  os_walk keep root (Dir es)
  = (root, filter keep (dir_names es), file_names es)
    :: flat_map (fun e => match snd e with
                          | Dir _ => if keep (fst e)
                                     then os_walk keep (root ++ [fst e]) (snd e)
                                     else []
                          | _ => []
                          end) es.
Proof.
  cbn [os_walk]. f_equal.
  induction es as [|[name ch] es IH]; [reflexivity|].
  cbn [flat_map fst snd]. rewrite <- IH.
  destruct ch; [reflexivity| |reflexivity].
  destruct (keep name); reflexivity.
Qed.

(** The pruned walk of the code collects what the filter keeps of the
    entries of the whole tree that are not directories, in the same
    order. *)
Lemma collect_md_os_walk (t : node) :
  forall root,
    collect_md (os_walk (fun d => negb (hidden d)) root t)
    = map (fun p => Str.join "/" (root ++ p)%list)
          (filter is_markdown_and_not_hidden (walk_entries t)).
Proof.
  induction t as [d|es IH|] using node_ind_entries; intros root;
    [reflexivity| |reflexivity].
  rewrite os_walk_dir, walk_entries_dir.
  rewrite filter_app, map_app.
  rewrite collect_md_cons. f_equal.
  - unfold collect_md. cbn [flat_map]. rewrite app_nil_r.
    rewrite filter_map_swap, map_map. unfold relpath.
    f_equal. apply filter_ext. intros f.
    unfold is_markdown_and_not_hidden, hidden. cbn [forallb last].
    rewrite andb_true_r. apply andb_comm.
  - induction IH as [|[name ch] es Hch _ IHes]; [reflexivity|].
    cbn [snd] in Hch. cbn [flat_map fst snd].
    rewrite filter_app, map_app.
    rewrite (filter_under name (walk_entries ch) (walk_entries_nonempty ch)).
    destruct ch as [d|es'|].
    + cbn [walk_entries filter map app].
      destruct (negb (hidden name)); exact IHes.
    + destruct (negb (hidden name)).
      * rewrite collect_md_app, Hch, IHes, join_under. reflexivity.
      * exact IHes.
    + cbn [walk_entries filter map app].
      destruct (negb (hidden name)); exact IHes.
Qed.

Lemma lister_walk_entries (t : node) :
  lister t
  = sort (map (Str.join "/") (filter is_markdown_and_not_hidden (walk_entries t))).
Proof. unfold lister. rewrite collect_md_os_walk. reflexivity. Qed.

Lemma lex_leb_total (a b : list N) : lex_leb a b = true \/ lex_leb b a = true.
Proof.
  revert b. induction a as [|x a IH]; intros [|y b]; cbn [lex_leb]; auto.
  destruct (N.ltb x y) eqn:Exy; [auto|].
  destruct (N.ltb y x) eqn:Eyx; [auto|]. apply IH.
Qed.

Lemma str_leb_total (a b : string) : str_leb a b = true \/ str_leb b a = true.
Proof. apply lex_leb_total. Qed.

Lemma insert_sorted_hd (x a : string) (l : list string) :
  le a x -> HdRel le a l -> HdRel le a (insert_sorted x l).
Proof.
  intros Hax Hal. destruct l as [|y l]; cbn [insert_sorted].
  - constructor. exact Hax.
  - inversion Hal; subst. destruct (str_leb x y); constructor; assumption.
Qed.

Lemma insert_sorted_sorted (x : string) (l : list string) :
  Sorted le l -> Sorted le (insert_sorted x l).
Proof.
  induction 1 as [|y l Hs IH Hhd]; cbn [insert_sorted].
  - repeat constructor.
  - destruct (str_leb x y) eqn:E.
    + repeat constructor; assumption.
    + constructor; [exact IH|]. apply insert_sorted_hd; [|exact Hhd].
      destruct (str_leb_total x y) as [H|H]; [congruence | exact H].
Qed.

Lemma sort_sorted (l : list string) : Sorted le (sort l).
Proof.
  induction l as [|x l IH]; cbn [sort fold_right]; [constructor|].
  apply insert_sorted_sorted. exact IH.
Qed.

Lemma insert_sorted_perm (x : string) (l : list string) :
  Permutation (insert_sorted x l) (x :: l).
Proof.
  induction l as [|y l IH]; cbn [insert_sorted]; [reflexivity|].
  destruct (str_leb x y); [reflexivity|].
  rewrite IH. apply perm_swap.
Qed.

Lemma sort_perm (l : list string) : Permutation (sort l) l.
Proof.
  induction l as [|x l IH]; cbn [sort fold_right]; [constructor|].
  rewrite insert_sorted_perm. constructor. exact IH.
Qed.

(** C5. On every directory tree the lister returns the relative paths
    of the entries that are not directories (regular files, and special
    files such as sockets as well), whose name ends with [.md] and none
    of whose parts begins with a dot, each once per entry, in ascending
    order of the code points of the path strings.  On a tree of regular
    files and directories only this is the sorted filter of the walk of
    the regular files.  A tree without such an entry gives the empty
    list. *)
Theorem lister_sorted_filter_walk (t : node) :
  lister t
  = sort (map (Str.join "/")
              (filter is_markdown_and_not_hidden (walk_entries t)))
  /\ Sorted le (lister t)
  /\ Permutation (lister t)
       (map (Str.join "/") (filter is_markdown_and_not_hidden (walk_entries t)))
  /\ (regular_tree t = true -> lister t = lister_spec t)
  /\ lister (Dir []) = []
  /\ lister (Dir [("a.md", File ""); (".hidden", Dir [("b.md", File "")])])
     = ["a.md"].
Proof.
  split; [apply lister_walk_entries|]. split; [apply sort_sorted|]. split.
  - rewrite lister_walk_entries. apply sort_perm.
  - split.
    + intros R. rewrite lister_walk_entries. unfold lister_spec.
      rewrite (walk_entries_regular t R). reflexivity.
    + split; reflexivity.
Qed.

End ListerFacts.

(** ** The index page *)

Module IndexFacts.
Import Str StrFacts Codec Posix FS Server Spec Obs FSFacts SaveFacts.

(** The index page lists [lister top] for the directory [top] that
    [SCRIPT_DIR] names, when the page can be encoded. *)
Lemma serve_index_lists (SCRIPT_DIR q : PosixPath) (top : node) (w : world) :
  namei (fs w) [] SCRIPT_DIR = Some q -> get (fs w) q = Some top ->
  utf8_valid (index_html (lister top)) = true ->
  serve_index SCRIPT_DIR w
  = (Ok tt,
     mkWorld (fs w) (calls w ++ [Walk SCRIPT_DIR])
       (wfile w ++ page (index_html (lister top)))).
Proof.
  intros Hn Hg Hv. apply namei_lookup in Hn.
  unfold serve_index, walk_script_dir. run_handler.
  rewrite Hn, Hg. cbn [fs calls wfile]. fold (lister top).
  unfold encode_utf8. rewrite Hv. cbn [fs calls wfile]. unfold page.
  rewrite <- !app_assoc. reflexivity.
Qed.

End IndexFacts.

(** ** How a handler can end *)

Module PageFacts.
Import Str StrFacts Codec Posix FS Server Spec Obs GuardFacts FSFacts SaveFacts.
Import ViewFacts.

Lemma error_is_complete (code : nat) (message : string) :
  complete_response [SendError code message].
Proof. left. eauto. Qed.

Lemma page_is_complete (html : string) : complete_response (page html).
Proof. right. unfold page. eauto. Qed.

Lemma json_success_complete : complete_response json_success.
Proof. right. unfold json_success. eauto. Qed.

Lemma json_failure_complete (m : string) : complete_response (json_failure m).
Proof. right. unfold json_failure. eauto. Qed.

(** An error page sent after some calls that open nothing for writing,
    with nothing written before it. *)
Lemma send_error_outcome (code : nat) (message : string) (w : world)
      (cs : list call) :
  filter is_write cs = [] ->
  let r := send_error code message
             (mkWorld (fs w) (calls w ++ cs) (wfile w)) in
  get_shape r w /\ (answered r w \/ raised_silent r w).
Proof.
  intros Hcs r. subst r. destruct (latin1_ok message) eqn:L.
  - rewrite (send_error_sent _ _ _ L). cbn [fs calls wfile]. split.
    + exists cs, [SendError code message]. split; [reflexivity | exact Hcs].
    + left. split; [reflexivity|]. exists [SendError code message].
      split; [reflexivity | apply error_is_complete].
  - rewrite (send_error_raises _ _ _ L). split.
    + exists cs, []. rewrite app_nil_r. split; [reflexivity | exact Hcs].
    + right. split; [eexists; reflexivity | reflexivity].
Qed.

Lemma page_outcome (html : string) (w : world) (cs : list call) :
  filter is_write cs = [] ->
  let r := (Ok tt, mkWorld (fs w) (calls w ++ cs) (wfile w ++ page html)) in
  get_shape r w /\ (answered r w \/ raised_silent r w).
Proof.
  intros Hcs r. split.
  - exists cs, (page html). split; [reflexivity | exact Hcs].
  - left. split; [reflexivity|]. exists (page html).
    split; [reflexivity | apply page_is_complete].
Qed.

Lemma raise_outcome (e : exn) (w : world) (cs : list call) :
  filter is_write cs = [] ->
  let r := (@Raise unit e, mkWorld (fs w) (calls w ++ cs) (wfile w)) in
  get_shape r w /\ (answered r w \/ raised_silent r w).
Proof.
  intros Hcs r. split.
  - exists cs, []. rewrite app_nil_r. split; [reflexivity | exact Hcs].
  - right. split; [eexists; reflexivity | reflexivity].
Qed.

Section Pages.
Variable SCRIPT_DIR : PosixPath.
Variable exn_str : exn -> string.
Variable markdown_markdown : string -> res string.

Local Abbreviation VIEW :=
  (serve_markdown SCRIPT_DIR exn_str markdown_markdown).
Local Abbreviation EDIT := (serve_editor SCRIPT_DIR exn_str).
Local Abbreviation INDEX := (serve_index SCRIPT_DIR).

Lemma serve_markdown_outcome (filename : string) (w : world) :
  get_shape (VIEW filename w) w
  /\ (answered (VIEW filename w) w \/ raised_silent (VIEW filename w) w).
Proof.
  destruct (exists_ (fs w) (joinpath SCRIPT_DIR filename)) as [[|]|e] eqn:X.
  - destruct (read_text (fs w) (joinpath SCRIPT_DIR filename))
      as [content|e] eqn:R.
    + destruct (markdown_markdown content) as [html|e] eqn:C.
      * rewrite (serve_markdown_ok SCRIPT_DIR exn_str markdown_markdown
                   filename w content html R C).
        apply (page_outcome _ w [_; _; _]). reflexivity.
      * rewrite (serve_markdown_convert_fails SCRIPT_DIR exn_str
                   markdown_markdown filename w content e R C).
        apply (send_error_outcome _ _ w [_; _; _]). reflexivity.
    + rewrite (serve_markdown_read_fails SCRIPT_DIR exn_str markdown_markdown
                 filename w e X R).
      apply (send_error_outcome _ _ w [_; _]). reflexivity.
  - rewrite (serve_markdown_missing SCRIPT_DIR exn_str markdown_markdown
               filename w X).
    apply (send_error_outcome _ _ w [_]). reflexivity.
  - rewrite (serve_markdown_exists_raises SCRIPT_DIR exn_str markdown_markdown
               filename w e X).
    apply (raise_outcome e w [_]). reflexivity.
Qed.

Lemma serve_editor_outcome (filename : string) (w : world) :
  get_shape (EDIT filename w) w
  /\ (answered (EDIT filename w) w \/ raised_silent (EDIT filename w) w).
Proof.
  destruct (exists_ (fs w) (joinpath SCRIPT_DIR filename)) as [[|]|e] eqn:X.
  - destruct (read_text (fs w) (joinpath SCRIPT_DIR filename))
      as [content|e] eqn:R.
    + rewrite (serve_editor_ok SCRIPT_DIR exn_str filename w content R).
      apply (page_outcome _ w [_; _]). reflexivity.
    + rewrite (serve_editor_read_fails SCRIPT_DIR exn_str filename w e X R).
      apply (send_error_outcome _ _ w [_; _]). reflexivity.
  - rewrite (serve_editor_missing SCRIPT_DIR exn_str filename w X).
    apply (send_error_outcome _ _ w [_]). reflexivity.
  - rewrite (serve_editor_exists_raises SCRIPT_DIR exn_str filename w e X).
    apply (raise_outcome e w [_]). reflexivity.
Qed.

(** The index: the page of some list, or an exception before anything
    is written, or one after the headers when the page cannot be
    encoded. *)
Lemma serve_index_outcome (w : world) :
  get_shape (INDEX w) w
  /\ (answered (INDEX w) w \/ raised_after_headers (INDEX w) w
      \/ raised_silent (INDEX w) w).
Proof.
  assert (P : forall md_files,
             let r := (bind (lift (encode_utf8 (index_html md_files)))
                            (fun _ => wfile_write (Html (index_html md_files))))
                        (mkWorld (fs w) (calls w ++ [Walk SCRIPT_DIR])
                                 (wfile w ++ page_headers)) in
             get_shape r w
             /\ (answered r w \/ raised_after_headers r w \/ raised_silent r w)).
  { intros md_files r. subst r. unfold bind, lift, encode_utf8, wfile_write, emit.
    destruct (utf8_valid (index_html md_files)); cbn [fs calls wfile].
    - rewrite <- app_assoc. split.
      + eexists [_], _. split; reflexivity.
      + left. split; [reflexivity|]. exists (page (index_html md_files)).
        split; [reflexivity | apply page_is_complete].
    - split.
      + eexists [_], _. split; reflexivity.
      + right. left. split; [eexists; reflexivity | reflexivity]. }
  assert (E : forall triples,
             (fun v : world =>
                match lookup (fs v) [] SCRIPT_DIR with
                | inr q =>
                    match get (fs v) q with
                    | Some top =>
                        (Ok (os_walk (fun d => negb (hidden d)) [] top), v)
                    | None => (Ok [], v)
                    end
                | inl Null => (Raise NullByte, v)
                | inl (Err _) => (Ok [], v)
                end)
               (mkWorld (fs w) (calls w ++ [Walk SCRIPT_DIR]) (wfile w))
             = (Ok triples,
                mkWorld (fs w) (calls w ++ [Walk SCRIPT_DIR]) (wfile w)) ->
             INDEX w
             = (bind (lift (encode_utf8 (index_html (sort (collect_md triples)))))
                     (fun _ => wfile_write
                                 (Html (index_html (sort (collect_md triples))))))
                 (mkWorld (fs w) (calls w ++ [Walk SCRIPT_DIR])
                          (wfile w ++ page_headers))).
  { intros triples H. unfold serve_index, walk_script_dir.
    unfold bind at 1 2. unfold log_call at 1. cbn [fs calls wfile].
    cbn [fs calls wfile] in H. rewrite H.
    unfold send_response, send_header, end_headers, emit, bind.
    cbn [fs calls wfile]. rewrite <- !app_assoc. reflexivity. }
  cbn [fs calls wfile] in E.
  destruct (lookup (fs w) [] SCRIPT_DIR) as [[|e]|q] eqn:L.
  - assert (N : INDEX w
               = (Raise NullByte,
                  mkWorld (fs w) (calls w ++ [Walk SCRIPT_DIR]) (wfile w))).
    { unfold serve_index, walk_script_dir.
      unfold bind at 1 2. unfold log_call at 1. cbn [fs calls wfile].
      rewrite L. reflexivity. }
    rewrite N. split.
    + exists [Walk SCRIPT_DIR], []. rewrite app_nil_r. split; reflexivity.
    + right. right. split; [eexists; reflexivity | reflexivity].
  - rewrite (E [] eq_refl). apply (P (sort (collect_md []))).
  - destruct (get (fs w) q) as [top|].
    + rewrite (E _ eq_refl). apply P.
    + rewrite (E [] eq_refl). apply (P (sort (collect_md []))).
Qed.

End Pages.

End PageFacts.

(** ** Responses of the handlers *)

Module HandlerFacts.
Import Str StrFacts Codec Posix FS Server Spec Obs GuardFacts FSFacts SaveFacts.
Import ViewFacts PageFacts.

Lemma get_shape_read_only (r : res unit * world) (w : world) :
  get_shape r w -> read_only r w.
Proof.
  intros [cs [out [E Hw]]]. unfold read_only. rewrite E. split; [reflexivity|].
  cbn [calls]. rewrite filter_app, Hw, app_nil_r. reflexivity.
Qed.

Section Handlers.
Variable SCRIPT_DIR : PosixPath.
Variable exn_str : exn -> string.
Variable markdown_markdown : string -> res string.

Local Abbreviation VIEW :=
  (serve_markdown SCRIPT_DIR exn_str markdown_markdown).
Local Abbreviation EDIT := (serve_editor SCRIPT_DIR exn_str).
Local Abbreviation INDEX := (serve_index SCRIPT_DIR).
Local Abbreviation SAVE := (save_markdown SCRIPT_DIR exn_str).

(** A save that answered 200 passed the check, had its body and wrote
    the file. *)
Lemma save_answered_200 (self : request) (filename : string) (w : world) :
  let filepath := joinpath SCRIPT_DIR filename in
  wfile (snd (SAVE self filename w)) = (wfile w ++ json_success)%list ->
  exists n body t',
    security_check SCRIPT_DIR filepath w = (Ok true, w)
    /\ py_int (content_length self) = Ok n
    /\ rfile_read self n = Ok body
    /\ utf8_valid body = true
    /\ write_text (fs w) filepath body = Ok t'
    /\ SAVE self filename w
       = (Ok tt, mkWorld t' (calls w ++ [OpenWrite filepath])
                         (wfile w ++ json_success)).
Proof.
  intros filepath H.
  destruct (security_check_cases SCRIPT_DIR filepath w)
    as [[_ [_ [_ Hc]]]|[_ Hc]].
  - destruct (save_markdown_cases SCRIPT_DIR exn_str self filename w)
      as [[E _]|[[e [_ E]]|[[e E]|[_ [n [body [content [t' [Hn [Hr [Hd [Hw E]]]]]]]]]]]].
    + fold filepath in E. rewrite Hc in E. discriminate E.
    + rewrite E in H. cbn [snd wfile] in H. apply app_inv_head in H.
      discriminate H.
    + rewrite E in H. cbn [snd wfile] in H. apply app_inv_head in H.
      discriminate H.
    + destruct (decode_utf8_valid _ _ Hd) as [-> Hv].
      exists n, body, t'. auto 10.
  - rewrite (save_markdown_denied SCRIPT_DIR exn_str self filename w Hc) in H.
    cbn [snd wfile denied] in H. apply app_inv_head in H. discriminate H.
Qed.

(** X5. A save returns normally, whatever the request and the tree, and
    has by then written exactly one whole response: an error page, or a
    status line, the content type, the end of the headers and one body.
    The viewer and the editor either do the same or raise with nothing
    written to the client (the message of the error page has a
    character outside Latin-1, or the existence test raises).  The
    index either does the same, or raises with nothing written, or
    raises after the headers and before the body (a listed name is not
    valid UTF-8). *)
Theorem handlers_answer_once (self : request) (filename : string) (w : world) :
  (answered (INDEX w) w \/ raised_after_headers (INDEX w) w
   \/ raised_silent (INDEX w) w)
  /\ (answered (VIEW filename w) w \/ raised_silent (VIEW filename w) w)
  /\ (answered (EDIT filename w) w \/ raised_silent (EDIT filename w) w)
  /\ answered (SAVE self filename w) w.
Proof.
  split; [apply serve_index_outcome|].
  split; [apply serve_markdown_outcome|].
  split; [apply serve_editor_outcome|].
  unfold answered.
  destruct (save_markdown_cases SCRIPT_DIR exn_str self filename w)
    as [[_ E]|[[e [_ E]]|[[e E]|[_ [n [b [c [t' [_ [_ [_ [_ E]]]]]]]]]]]];
    rewrite E; (split; [reflexivity|]); cbn [snd wfile denied];
    eexists; (split; [reflexivity|]).
  - apply error_is_complete.
  - apply json_failure_complete.
  - apply json_failure_complete.
  - apply json_success_complete.
Qed.

(** X7. When the joined path names a regular file that decodes, the
    viewer answers 200 with the page built from the converted text (if
    the conversion returns) and the editor answers 200 with the page
    that embeds the escaped text; each makes the existence test and one
    open for reading, the viewer one conversion more. *)
Theorem viewer_editor_serve_file (filename : string) (w : world)
        (content : string) :
  let filepath := joinpath SCRIPT_DIR filename in
  read_text (fs w) filepath = Ok content ->
  (forall html,
      markdown_markdown content = Ok html ->
      VIEW filename w
      = (Ok tt,
         mkWorld (fs w)
           (calls w ++ [Stat filepath; OpenRead filepath; Convert content])
           (wfile w ++ page (viewer_html filename html))))
  /\ EDIT filename w
     = (Ok tt,
        mkWorld (fs w) (calls w ++ [Stat filepath; OpenRead filepath])
          (wfile w ++ page (editor_html filename (escape_for_js content)))).
Proof.
  intros filepath Hr. split.
  - intros html Hc. apply serve_markdown_ok; assumption.
  - apply serve_editor_ok; assumption.
Qed.

(** X13. After a save that answered 200, the target holds the body of
    the request, which is valid UTF-8; the viewer of the same name then
    answers 200 with the page of that text, converted after its line
    ends were made LF (if the conversion returns), and the editor
    answers 200 with that text escaped. *)
Theorem saved_text_is_served (self : request) (filename : string) (w : world) :
  let filepath := joinpath SCRIPT_DIR filename in
  let w' := snd (SAVE self filename w) in
  wfile w' = (wfile w ++ json_success)%list ->
  exists n body,
    py_int (content_length self) = Ok n
    /\ rfile_read self n = Ok body
    /\ utf8_valid body = true
    /\ read_text (fs w') filepath = Ok (universal_newlines body)
    /\ (forall html,
           markdown_markdown (universal_newlines body) = Ok html ->
           VIEW filename w'
           = (Ok tt,
              mkWorld (fs w')
                (calls w' ++ [Stat filepath; OpenRead filepath;
                              Convert (universal_newlines body)])
                (wfile w' ++ page (viewer_html filename html))))
    /\ EDIT filename w'
       = (Ok tt,
          mkWorld (fs w') (calls w' ++ [Stat filepath; OpenRead filepath])
            (wfile w' ++ page (editor_html filename
                                 (escape_for_js (universal_newlines body))))).
Proof.
  intros filepath w' H.
  destruct (save_answered_200 self filename w H)
    as [n [body [t' [_ [Hn [Hr [Hv [Hw E]]]]]]]].
  destruct (write_then_read _ _ _ _ Hw Hv) as [q [_ [_ [_ [_ Hread]]]]].
  assert (Hfs : fs w' = t') by (unfold w'; rewrite E; reflexivity).
  assert (Hr' : read_text (fs w') filepath = Ok (universal_newlines body))
    by (rewrite Hfs; exact Hread).
  exists n, body. repeat (split; [assumption|]). split.
  - intros html Hc. apply serve_markdown_ok; assumption.
  - apply serve_editor_ok; assumption.
Qed.

Variable urlparse_path : string -> string.
Variable unquote : string -> string.
Variable super_do_GET : request -> M unit.

(** X6. A GET never changes the tree and never opens a file for
    writing, provided the inherited static handler does neither. *)
Theorem do_GET_read_only (self : request) (w : world) :
  (forall s w0, read_only (super_do_GET s w0) w0) ->
  read_only (do_GET SCRIPT_DIR exn_str markdown_markdown urlparse_path unquote
                    super_do_GET self w) w.
Proof.
  intros Hsup. unfold do_GET.
  destruct (_ || _); [apply get_shape_read_only, serve_index_outcome|].
  destruct (_ && _); [apply get_shape_read_only, serve_editor_outcome|].
  destruct (endswith _ _); [apply get_shape_read_only, serve_markdown_outcome|].
  apply Hsup.
Qed.

End Handlers.

End HandlerFacts.

(** ** What the index lists *)

Module IndexListFacts.
Import Str StrFacts Codec Posix FS Server Spec Obs GuardFacts FSFacts SaveFacts.
Import ViewFacts PageFacts HandlerFacts ListerFacts IndexFacts.

Lemma assoc_in (c : string) (v : node) (es : list (string * node)) :
  assoc c es = Some v -> In (c, v) es.
Proof.
  induction es as [|[n w] es IH]; cbn [assoc]; [discriminate|].
  destruct (String.eqb_spec n c) as [->|_].
  - intros [= ->]. left. reflexivity.
  - intros H. right. auto.
Qed.

(** The walk of the entries reaches every regular file that a lookup
    reaches. *)
Lemma get_in_walk (p : list string) :
  forall (t : node) (d : string),
    get t p = Some (File d) -> p <> [] -> In p (walk_entries t).
Proof.
  induction p as [|c r IH]; intros t d Hg Hp; [congruence|].
  cbn [get] in Hg. destruct t as [d'|es|]; [discriminate| |discriminate].
  destruct (assoc c es) as [ch|] eqn:A; [|discriminate].
  apply assoc_in in A. rewrite walk_entries_dir. apply in_or_app.
  destruct r as [|c' r'].
  - left. cbn [get] in Hg. injection Hg as ->.
    apply (in_map (fun f => [f])). unfold file_names. apply in_flat_map.
    exists (c, File d). split; [exact A | left; reflexivity].
  - right. apply in_flat_map. exists (c, ch). split; [exact A|].
    cbn [fst snd]. apply (in_map (cons c)). apply (IH ch d Hg). discriminate.
Qed.

Lemma in_lister (t : node) (p : list string) :
  In p (walk_entries t) -> is_markdown_and_not_hidden p = true ->
  In (Str.join "/" p) (lister t).
Proof.
  intros Hin Hp. rewrite lister_walk_entries.
  apply (Permutation_in _ (Permutation_sym (sort_perm _))).
  apply (in_map (fun p => Str.join "/" p)). apply filter_In. auto.
Qed.

Lemma lister_in (t : node) (f : string) :
  In f (lister t) ->
  exists p, f = Str.join "/" p /\ In p (walk_entries t)
            /\ is_markdown_and_not_hidden p = true.
Proof.
  rewrite lister_walk_entries. intros H.
  apply (Permutation_in _ (sort_perm _)) in H.
  apply in_map_iff in H. destruct H as [p [<- H]].
  apply filter_In in H. exists p. tauto.
Qed.

Lemma join_ends_with_last (p : list string) :
  p <> [] -> exists pre, Str.join "/" p = pre ++ last p "".
Proof.
  unfold Str.join. induction p as [|c r IH]; [congruence|]. intros _.
  destruct r as [|c' r'].
  - exists "". reflexivity.
  - destruct IH as [pre E]; [discriminate|].
    exists (c ++ "/" ++ pre).
    change (String.concat "/" (c :: c' :: r'))
      with (c ++ "/" ++ String.concat "/" (c' :: r')).
    rewrite E, !append_assoc. reflexivity.
Qed.

Lemma md_path_nonempty (p : list string) :
  is_markdown_and_not_hidden p = true -> p <> [].
Proof. intros H ->. discriminate H. Qed.

Lemma listed_ends_with_md (t : node) (f : string) :
  In f (lister t) -> endswith f ".md" = true.
Proof.
  intros H. destruct (lister_in t f H) as [p [-> [_ Hp]]].
  destruct (join_ends_with_last p (md_path_nonempty p Hp)) as [pre E].
  unfold is_markdown_and_not_hidden in Hp. apply andb_true_iff in Hp.
  destruct Hp as [_ Hs]. apply endswith_iff in Hs. destruct Hs as [stem Hs].
  rewrite E, Hs. apply endswith_iff.
  exists (pre ++ stem). rewrite append_assoc. reflexivity.
Qed.

(** X8. Every regular file that a lookup from the top reaches, whose
    path has no part beginning with a dot and whose name ends with
    [.md], is on the list of the index page, under its parts joined by
    slashes. *)
Theorem lister_complete (t : node) (p : list string) (d : string) :
  file_at t p d -> is_markdown_and_not_hidden p = true ->
  In (Str.join "/" p) (lister t).
Proof.
  intros Hg Hp. apply in_lister; [|exact Hp].
  apply (get_in_walk p t d Hg). apply md_path_nonempty. exact Hp.
Qed.

Lemma fold_plain (l acc : list string) :
  plain l = true -> fold_left realpath_step l acc = (acc ++ l)%list.
Proof.
  revert acc. induction l as [|c l IH]; intros acc; cbn [plain forallb fold_left].
  - rewrite app_nil_r. reflexivity.
  - intros H. apply andb_true_iff in H. destruct H as [Hc Hl].
    unfold realpath_step at 2. apply negb_true_iff in Hc. rewrite Hc.
    rewrite (IH _ Hl), <- app_assoc. reflexivity.
Qed.

Lemma canonical_plain (root l : list string) :
  plain l = true -> canonical (root ++ l)%list = (canonical root ++ l)%list.
Proof. intros H. rewrite canonical_app. apply fold_plain. exact H. Qed.

Lemma joinpath_relative (root : PosixPath) (filename : string) :
  startswith filename "/" = false ->
  joinpath root filename = (root ++ parse_parts filename)%list.
Proof. intros H. unfold joinpath. rewrite H. reflexivity. Qed.

Lemma plain_inside (root : PosixPath) (filename : string) :
  startswith filename "/" = false -> plain (parse_parts filename) = true ->
  inside (canonical root) (canonical (joinpath root filename)).
Proof.
  intros Ha Hp. rewrite joinpath_relative, canonical_plain by assumption.
  apply inside_iff. eauto.
Qed.

(** X10. On a tree without symbolic links, a name that is not absolute,
    has no [..] part and makes, like the root, a path without NUL byte
    always passes the security check of [save_markdown]. *)
Theorem plain_name_passes_check (root : PosixPath) (filename : string)
        (w : world) :
  startswith filename "/" = false -> plain (parse_parts filename) = true ->
  has_nul root = false -> has_nul (joinpath root filename) = false ->
  security_check root (joinpath root filename) w = (Ok true, w).
Proof.
  intros Ha Hp Nr Nf. apply security_check_pass; [exact Nf | exact Nr|].
  apply plain_inside; assumption.
Qed.

(** X14. After a save that answered 200, under a name that is not
    absolute, has no [..] part, no part beginning with a dot, and ends
    with [.md], the saved name is on the list of the directory as it
    now is; the next GET of [/] answers 200 with the page of that list
    when the page can be encoded, that is, when no listed name has
    bytes that are not UTF-8. *)
Theorem saved_file_is_listed (SCRIPT_DIR : PosixPath) (exn_str : exn -> string)
        (self : request) (filename : string) (w : world) (R : list string) :
  let w' := snd (save_markdown SCRIPT_DIR exn_str self filename w) in
  startswith filename "/" = false ->
  plain (parse_parts filename) = true ->
  is_markdown_and_not_hidden (parse_parts filename) = true ->
  namei (fs w) [] SCRIPT_DIR = Some R ->
  wfile w' = (wfile w ++ json_success)%list ->
  exists top',
    get (fs w') R = Some top'
    /\ In (Str.join "/" (parse_parts filename)) (lister top')
    /\ (utf8_valid (index_html (lister top')) = true ->
        serve_index SCRIPT_DIR w'
        = (Ok tt,
           mkWorld (fs w') (calls w' ++ [Walk SCRIPT_DIR])
             (wfile w' ++ page (index_html (lister top'))))).
Proof.
  intros w' Ha Hp Hmd HR H200.
  destruct (save_answered_200 SCRIPT_DIR exn_str self filename w H200)
    as [n [body [t' [_ [_ [_ [Hv [Hw E]]]]]]]].
  destruct (write_then_read _ _ _ _ Hw Hv) as [q [Hq [_ [Hg [Hsame _]]]]].
  assert (Hq' : q = (R ++ parse_parts filename)%list).
  { rewrite (namei_canonical _ _ _ Hq), (namei_canonical _ _ _ HR).
    rewrite joinpath_relative by exact Ha.
    apply canonical_plain. exact Hp. }
  subst q. rewrite get_app in Hg.
  destruct (get t' R) as [top'|] eqn:G; [|discriminate].
  assert (Hfs : fs w' = t') by (unfold w'; rewrite E; reflexivity).
  exists top'. rewrite Hfs. split; [exact G|]. split.
  - apply in_lister; [|exact Hmd].
    apply (get_in_walk _ top' body Hg). apply md_path_nonempty. exact Hmd.
  - intros Hu. rewrite <- Hfs.
    apply (serve_index_lists SCRIPT_DIR R top' w').
    + rewrite Hfs, Hsame. exact HR.
    + rewrite Hfs. exact G.
    + exact Hu.
Qed.

End IndexListFacts.

(** ** Names and routes *)

Module RouteNameFacts.
Import Str StrFacts Codec Posix FS Server Spec Obs GuardFacts FSFacts SaveFacts.
Import ViewFacts PageFacts ListerFacts IndexListFacts.

Lemma lstrip_not_absolute (s : string) :
  startswith (lstrip s "/") "/" = false.
Proof.
  induction s as [|c s IH]; [reflexivity|]. cbn [lstrip mem].
  destruct (Ascii.eqb_spec c "/") as [->|Hne]; cbn [orb]; [exact IH|].
  unfold startswith. cbn [String.prefix].
  destruct (ascii_dec "/" c); [congruence | reflexivity].
Qed.

Lemma parse_parts_lstrip (s : string) :
  parse_parts (lstrip s "/") = parse_parts s.
Proof.
  induction s as [|c s IH]; [reflexivity|]. cbn [lstrip mem].
  destruct (Ascii.eqb_spec c "/") as [->|Hne]; cbn [orb]; [|reflexivity].
  rewrite IH. unfold parse_parts. cbn [split].
  rewrite Ascii.eqb_refl. reflexivity.
Qed.

Lemma lstrip_slash_name (name : string) :
  startswith name "/" = false -> lstrip ("/" ++ name) "/" = name.
Proof.
  intros H. cbn [append lstrip mem]. rewrite Ascii.eqb_refl. cbn [orb].
  destruct name as [|c name]; [reflexivity|]. cbn [lstrip mem].
  unfold startswith in H. cbn [String.prefix] in H.
  destruct (Ascii.eqb_spec c "/") as [->|Hne]; [|reflexivity].
  destruct (ascii_dec "/" "/"); [|congruence].
  destruct name; discriminate H.
Qed.

Lemma endswith_prepend (pre s suf : string) :
  endswith s suf = true -> endswith (pre ++ s) suf = true.
Proof.
  intros H. apply endswith_iff in H. destruct H as [p ->].
  apply endswith_iff. exists (pre ++ p). rewrite append_assoc. reflexivity.
Qed.

Lemma viewer_joinpath (SCRIPT_DIR : PosixPath) (decoded : string) :
  joinpath SCRIPT_DIR (lstrip decoded "/")
  = (SCRIPT_DIR ++ parse_parts decoded)%list.
Proof.
  unfold joinpath. rewrite lstrip_not_absolute, parse_parts_lstrip.
  reflexivity.
Qed.

Lemma edit_rest_ends_with_md (rest : string) :
  endswith ("edit/" ++ rest) ".md" = true -> endswith rest ".md" = true.
Proof.
  intros Hmd. apply endswith_iff in Hmd. destruct Hmd as [p Hp].
  apply endswith_iff.
  destruct p as [|a [|b [|c [|d [|e p']]]]]; try discriminate Hp.
  exists p'. cbn [append] in Hp. congruence.
Qed.

Ltac all_named :=
  repeat (apply Forall_cons;
          [first [left; reflexivity | right; left; reflexivity
                 | right; right; eexists; reflexivity]|]);
  apply Forall_nil.

Lemma send_error_calls (code : nat) (message : string) (w : world) :
  calls (snd (send_error code message w)) = calls w.
Proof. unfold send_error, emit, raise. destruct (latin1_ok message); reflexivity. Qed.

Section Names.
Variable SCRIPT_DIR : PosixPath.
Variable exn_str : exn -> string.
Variable markdown_markdown : string -> res string.
Variable urlparse_path : string -> string.
Variable unquote : string -> string.
Variable super_do_GET : request -> M unit.

Local Abbreviation VIEW :=
  (serve_markdown SCRIPT_DIR exn_str markdown_markdown).
Local Abbreviation EDIT := (serve_editor SCRIPT_DIR exn_str).
Local Abbreviation GET :=
  (do_GET SCRIPT_DIR exn_str markdown_markdown urlparse_path unquote
          super_do_GET).
Local Abbreviation POST := (do_POST SCRIPT_DIR exn_str urlparse_path unquote).

Lemma route_edit (self : request) (rest : string) :
  endswith rest ".md" = true ->
  unquote (urlparse_path (path self)) = "/edit/" ++ rest ->
  GET self = EDIT rest.
Proof.
  intros Hr E. unfold do_GET. rewrite E.
  rewrite (endswith_prepend "/edit/" rest ".md" Hr).
  replace (startswith ("/edit/" ++ rest) "/edit/") with true
    by (unfold startswith; cbn; destruct rest; reflexivity).
  cbn [append String.eqb Ascii.eqb Bool.eqb orb andb].
  rewrite (replace_prefix_once (String "/" (String "e" (String "d"
             (String "i" (String "t" (String "/" rest)))))) "/edit/");
    [reflexivity | discriminate |].
  unfold startswith. cbn. destruct rest; reflexivity.
Qed.

Lemma route_save (self : request) (name : string) :
  endswith name ".md" = true ->
  unquote (urlparse_path (path self)) = "/save/" ++ name ->
  POST self = save_markdown SCRIPT_DIR exn_str self name.
Proof.
  intros Hmd E. unfold do_POST. rewrite E.
  rewrite (endswith_prepend "/save/" name ".md" Hmd).
  replace (startswith ("/save/" ++ name) "/save/") with true
    by (unfold startswith; cbn; destruct name; reflexivity).
  cbn [andb].
  rewrite (replace_prefix_once ("/save/" ++ name) "/save/");
    [reflexivity | discriminate |].
  unfold startswith. cbn. destruct name; reflexivity.
Qed.

(** A decoded path that ends with [.md] and does not begin with
    [/edit/] goes to the viewer, without its leading slashes. *)
Lemma route_view (self : request) :
  let decoded := unquote (urlparse_path (path self)) in
  endswith decoded ".md" = true -> startswith decoded "/edit/" = false ->
  GET self = VIEW (lstrip decoded "/").
Proof.
  intros decoded Hmd Hed. unfold do_GET. fold decoded.
  rewrite Hmd, Hed. cbn [andb].
  assert (H1 : String.eqb decoded "/" || String.eqb decoded "" = false).
  { pose proof Hmd as Hs. apply endswith_iff in Hs. destruct Hs as [p Hp].
    apply orb_false_iff. split; apply String.eqb_neq; rewrite Hp;
      destruct p as [|x [|y p]]; discriminate. }
  rewrite H1. reflexivity.
Qed.

Lemma route_view_name (self : request) (name : string) :
  endswith name ".md" = true ->
  unquote (urlparse_path (path self)) = "/" ++ name ->
  startswith name "/" = false -> startswith name "edit/" = false ->
  GET self = VIEW name.
Proof.
  intros Hmd E Habs Hed.
  rewrite route_view; rewrite E.
  - rewrite (lstrip_slash_name name Habs). reflexivity.
  - apply endswith_prepend. exact Hmd.
  - unfold startswith in *. cbn [append String.prefix].
    destruct (ascii_dec "/" "/"); [|congruence]. exact Hed.
Qed.

(** X9. Every path on the list of the index ends with [.md], and a GET
    whose decoded path is one of the two links the page gives for it is
    dispatched to a Markdown handler, never to the index or the static
    handler: [/edit/<path>] to the editor of the path; [/<path>] to the
    viewer, or, when the path begins with [edit/], to the editor of the
    rest.  (The page writes the path into the links as it is: the
    decoded path of a followed link is this one for a name without
    [?], [#] and [%].) *)
Theorem listed_links_reach_markdown_handlers (t : node) (f : string)
        (self : request) :
  let decoded := unquote (urlparse_path (path self)) in
  In f (lister t) ->
  endswith f ".md" = true
  /\ (decoded = "/edit/" ++ f -> GET self = EDIT f)
  /\ (decoded = "/" ++ f ->
      (startswith f "edit/" = false /\ GET self = VIEW (lstrip decoded "/"))
      \/ (exists rest, f = "edit/" ++ rest /\ GET self = EDIT rest)).
Proof.
  intros decoded Hin. pose proof (listed_ends_with_md t f Hin) as Hmd.
  split; [exact Hmd|]. split.
  - intros E. apply route_edit; assumption.
  - intros E. destruct (startswith f "edit/") eqn:S.
    + right. apply startswith_iff in S. destruct S as [rest ->].
      exists rest. split; [reflexivity|].
      apply route_edit; [|exact E]. apply edit_rest_ends_with_md. exact Hmd.
    + left. split; [reflexivity|]. apply route_view; fold decoded; rewrite E.
      * apply endswith_prepend. exact Hmd.
      * unfold startswith in *. cbn [append String.prefix].
        destruct (ascii_dec "/" "/"); [|congruence]. exact S.
Qed.

(** X12. For a name that ends with [.md], the decoded paths
    [/edit/<name>] and [/save/<name>] reach the editor and the save with
    exactly that name, even when the name contains [/edit/] or [/save/]
    again; [/<name>] reaches the viewer with that name when the name
    starts neither with a slash nor with [edit/].  A decoded path
    [/edit/<rest>] is taken by the editor of [<rest>], also when it was
    meant as the file [<rest>] of a directory called [edit]. *)
Theorem routes_keep_the_name (self : request) (name : string) :
  let decoded := unquote (urlparse_path (path self)) in
  endswith name ".md" = true ->
  (decoded = "/edit/" ++ name -> GET self = EDIT name)
  /\ (decoded = "/save/" ++ name ->
      POST self = save_markdown SCRIPT_DIR exn_str self name)
  /\ (decoded = "/" ++ name -> startswith name "/" = false ->
      startswith name "edit/" = false ->
      GET self = VIEW name)
  /\ (forall rest,
         name = "edit/" ++ rest -> decoded = "/" ++ name ->
         GET self = EDIT rest).
Proof.
  intros decoded Hmd.
  split; [intros E; apply route_edit; assumption|].
  split; [intros E; apply route_save; assumption|]. split.
  - intros E Habs Hed. apply route_view_name; assumption.
  - intros rest -> E. apply route_edit; [|exact E].
    apply edit_rest_ends_with_md. exact Hmd.
Qed.

Lemma serve_markdown_calls (filename : string) (w : world) :
  let filepath := joinpath SCRIPT_DIR filename in
  exists cs,
    calls (snd (VIEW filename w)) = (calls w ++ cs)%list
    /\ Forall (fun c => c = Stat filepath \/ c = OpenRead filepath
                        \/ exists src, c = Convert src) cs.
Proof.
  intros filepath.
  destruct (exists_ (fs w) filepath) as [[|]|e] eqn:X.
  - destruct (read_text (fs w) filepath) as [content|e] eqn:R.
    + destruct (markdown_markdown content) as [html|e] eqn:C.
      * rewrite (serve_markdown_ok SCRIPT_DIR exn_str markdown_markdown
                   filename w content html R C).
        eexists [_; _; _]. split; [reflexivity|]. all_named.
      * rewrite (serve_markdown_convert_fails SCRIPT_DIR exn_str
                   markdown_markdown filename w content e R C).
        rewrite send_error_calls. eexists [_; _; _].
        split; [reflexivity|]. all_named.
    + rewrite (serve_markdown_read_fails SCRIPT_DIR exn_str markdown_markdown
                 filename w e X R).
      rewrite send_error_calls. eexists [_; _].
      split; [reflexivity|]. all_named.
  - rewrite (serve_markdown_missing SCRIPT_DIR exn_str markdown_markdown
               filename w X).
    rewrite send_error_calls. eexists [_].
    split; [reflexivity|]. all_named.
  - rewrite (serve_markdown_exists_raises SCRIPT_DIR exn_str markdown_markdown
               filename w e X).
    eexists [_]. split; [reflexivity|]. all_named.
Qed.

(** X11. A GET that the router sends to the viewer names one file only:
    the name the viewer gets has lost every leading slash, so it is
    never absolute, and the path the viewer tests and opens is
    [SCRIPT_DIR] followed by the parts of the decoded path.  On a tree
    without symbolic links that path is inside the root when none of
    the parts is [..]: the viewer leaves the root through [..] parts
    only. *)
Theorem viewer_opens_below_script_dir (self : request) (w : world) :
  let decoded := unquote (urlparse_path (path self)) in
  let target := (SCRIPT_DIR ++ parse_parts decoded)%list in
  endswith decoded ".md" = true -> startswith decoded "/edit/" = false ->
  GET self w = VIEW (lstrip decoded "/") w
  /\ startswith (lstrip decoded "/") "/" = false
  /\ joinpath SCRIPT_DIR (lstrip decoded "/") = target
  /\ (exists cs,
         calls (snd (GET self w)) = (calls w ++ cs)%list
         /\ Forall (fun c => c = Stat target \/ c = OpenRead target
                             \/ exists src, c = Convert src) cs)
  /\ (plain (parse_parts decoded) = true ->
      inside (canonical SCRIPT_DIR) (canonical target)).
Proof.
  intros decoded target Hmd Hed.
  pose proof (route_view self Hmd Hed) as E. fold decoded in E.
  split; [rewrite E; reflexivity|].
  split; [apply lstrip_not_absolute|].
  split; [apply viewer_joinpath|]. split.
  - rewrite E. unfold target. rewrite <- viewer_joinpath.
    apply serve_markdown_calls.
  - intros Hp. unfold target. rewrite canonical_plain by exact Hp.
    apply inside_iff. eauto.
Qed.

(** X17. The viewer and the editor open the joined path whenever it
    exists, with no test of where it lies: inside the root or outside
    it, the path is opened for reading. *)
Theorem read_handlers_open_any_existing_path (filename : string) (w : world) :
  let filepath := joinpath SCRIPT_DIR filename in
  exists_ (fs w) filepath = Ok true ->
  In (OpenRead filepath) (calls (snd (VIEW filename w)))
  /\ In (OpenRead filepath) (calls (snd (EDIT filename w))).
Proof.
  intros filepath Hex. split.
  - destruct (read_text (fs w) filepath) as [content|e] eqn:R.
    + destruct (markdown_markdown content) as [html|e] eqn:C.
      * rewrite (serve_markdown_ok SCRIPT_DIR exn_str markdown_markdown
                   filename w content html R C).
        cbn [snd calls]. rewrite in_app_iff. cbn [In]. auto.
      * rewrite (serve_markdown_convert_fails SCRIPT_DIR exn_str
                   markdown_markdown filename w content e R C).
        rewrite send_error_calls. cbn [calls].
        rewrite in_app_iff. cbn [In]. auto.
    + rewrite (serve_markdown_read_fails SCRIPT_DIR exn_str markdown_markdown
                 filename w e Hex R).
      rewrite send_error_calls. cbn [calls].
      rewrite in_app_iff. cbn [In]. auto.
  - destruct (read_text (fs w) filepath) as [content|e] eqn:R.
    + rewrite (serve_editor_ok SCRIPT_DIR exn_str filename w content R).
      cbn [snd calls]. rewrite in_app_iff. cbn [In]. auto.
    + rewrite (serve_editor_read_fails SCRIPT_DIR exn_str filename w e Hex R).
      rewrite send_error_calls. cbn [calls].
      rewrite in_app_iff. cbn [In]. auto.
Qed.

End Names.

End RouteNameFacts.

(** ** More on the escaping *)

Module EscapeMoreFacts.
Import Str StrFacts Server Spec Obs EscapeFacts.

Lemma escape_char_length (c : ascii) :
  String.length (escape_char c)
  = 1 + (if Ascii.eqb c "\" || Ascii.eqb c "`" || Ascii.eqb c "$"
         then 1 else 0).
Proof. unfold escape_char, special. destruct (_ || _); reflexivity. Qed.

Lemma subst_escape_length (s : string) :
  String.length (subst escape_char s) = String.length s + count_special s.
Proof.
  induction s as [|c s IH]; [reflexivity|].
  cbn [subst count_special String.length].
  rewrite length_append, escape_char_length, IH. lia.
Qed.

Lemma subst_escape_plain (s : string) :
  count_special s = 0 -> subst escape_char s = s.
Proof.
  induction s as [|c s IH]; [reflexivity|]. cbn [subst count_special].
  unfold escape_char at 1. unfold special.
  destruct (_ || _); [discriminate|]. cbn [plus append].
  intros H. rewrite (IH H). reflexivity.
Qed.

(** X15. The escaping of the editor page adds one character for each
    backslash, backtick and dollar sign of the content and nothing else;
    a content with none of the three is embedded as it is, so content
    that holds markup, the closing tag of the text area included,
    reaches the page unchanged. *)
Theorem escape_adds_one_per_special (content : string) :
  String.length (escape_for_js content)
  = String.length content + count_special content
  /\ (count_special content = 0 ->
      escape_for_js content = content
      /\ forall filename,
           contains (editor_html filename (escape_for_js content))
                    (editor_open ++ content ++ editor_close)).
Proof.
  rewrite escape_for_js_subst. split; [apply subst_escape_length|].
  intros H. rewrite (subst_escape_plain _ H). split; [reflexivity|].
  intros filename. unfold editor_html, contains.
  exists (editor_head filename), (editor_script filename).
  rewrite !append_assoc. reflexivity.
Qed.

End EscapeMoreFacts.

(** ** The text that is read *)

Module TextFacts.
Import Str StrFacts Codec Posix FS Server Spec Obs FSFacts.

Lemma universal_newlines_no_cr_pair (s : string) :
  mem CR (universal_newlines s) = false
  /\ forall c, mem CR (universal_newlines (String c s)) = false.
Proof.
  induction s as [|a s [IH1 IH2]].
  - split; [reflexivity|]. intros c. cbn [universal_newlines].
    destruct (Ascii.eqb_spec c CR) as [->|Hne]; [reflexivity|].
    cbn [mem]. apply Ascii.eqb_neq in Hne. rewrite Ascii.eqb_sym in Hne.
    rewrite Hne. reflexivity.
  - split; [apply IH2|]. intros c.
    change (universal_newlines (String c (String a s)))
      with (if Ascii.eqb c CR
            then String LF (if Ascii.eqb a LF then universal_newlines s
                            else universal_newlines (String a s))
            else String c (universal_newlines (String a s))).
    destruct (Ascii.eqb_spec c CR) as [->|Hne].
    + cbn [mem]. change (Ascii.eqb CR LF) with false. cbn [orb].
      destruct (Ascii.eqb a LF); [exact IH1 | apply IH2].
    + cbn [mem]. apply Ascii.eqb_neq in Hne. rewrite Ascii.eqb_sym in Hne.
      rewrite Hne. cbn [orb]. apply IH2.
Qed.

(** X18. The text the viewer and the editor get from a file never holds
    a carriage return, whatever bytes the file has: what is converted,
    and what is embedded in the editor page, has LF line ends only. *)
Theorem text_read_has_no_cr (t : node) (p : PosixPath) (content : string) :
  read_text t p = Ok content -> mem CR content = false.
Proof.
  intros H. destruct (read_text_inv _ _ _ H) as [q [d [_ [_ [_ ->]]]]].
  apply universal_newlines_no_cr_pair.
Qed.

End TextFacts.

(** * Runs on the example tree *)

Module Runs.
Import Str StrFacts Codec Posix FS Server Spec Obs Lib.
Import GuardFacts FSFacts SaveFacts RoundTripFacts ViewFacts RouterFacts.
Import ListerFacts.

Example replace_first :
  Str.replace "/edit//edit/a.md" "/edit/" "" (Some 1) = "/edit/a.md".
Proof. reflexivity. Qed.

Example replace_overlap : Str.replace "aaaa" "aa" "b" None = "bb".
Proof. reflexivity. Qed.

Example replace_empty_pattern : Str.replace "abc" "" "-" (Some 2) = "-a-bc".
Proof. reflexivity. Qed.

Example lstrip_slashes : Str.lstrip "//a/b.md" "/" = "a/b.md".
Proof. reflexivity. Qed.

Example parse_parts_normalises :
  parse_parts "a//./b/../c.md" = ["a"; "b"; ".."; "c.md"].
Proof. reflexivity. Qed.

Example py_int_forms :
  py_int (Some " 1_0 ") = Ok 10%Z /\ py_int (Some "-3") = Ok (-3)%Z
  /\ py_int (Some (String "160" "7")) = Ok 7%Z
  /\ py_int (Some "1__0") = Raise (InvalidLiteral "1__0")
  /\ py_int (Some "_1") = Raise (InvalidLiteral "_1")
  /\ py_int (Some "") = Raise (InvalidLiteral "")
  /\ py_int None = Raise NoneToInt.
Proof. repeat split. Qed.

Example py_int_digit_limit :
  py_int (Some (String.concat "" (repeat "1" 4300)))
  = Ok ((10 ^ 4300 - 1) / 9)%Z
  /\ py_int (Some (String.concat "" (repeat "1" 4301)))
     = Raise (TooManyDigits 4301).
Proof. split; vm_compute; reflexivity. Qed.

Example rfile_read_forms :
  rfile_read (mkRequest "/" None "abcdef") 4 = Ok "abcd"
  /\ rfile_read (mkRequest "/" None "abcdef") 9 = Ok "abcdef"
  /\ rfile_read (mkRequest "/" None "abcdef") (-1) = Ok "abcdef"
  /\ rfile_read (mkRequest "/" None "abcdef") (-2) = Raise ReadLength
  /\ rfile_read (mkRequest "/" None "abcdef") (2 ^ 63) = Raise IndexOverflow
  /\ rfile_read (mkRequest "/" None "abcdef") (2 ^ 63 - 1) = Raise BytesOverflow
  /\ rfile_read (mkRequest "/" None "abcdef") (2 ^ 40) = Raise MemoryError.
Proof. repeat split. Qed.

Example utf8_valid_forms :
  utf8_valid "caf" = true
  /\ utf8_valid (String "195" (String "169" "")) = true
  /\ utf8_valid (String "192" (String "128" "")) = false
  /\ utf8_valid (String "237" (String "160" (String "128" ""))) = false
  /\ utf8_valid (String "255" "") = false.
Proof. repeat split. Qed.

(** A name with an undecodable byte sorts after every well-formed name:
    its surrogate is above the code points of two and three bytes, and
    below those of four. *)
Example sort_by_code_point :
  sort [String "255" ".md"; zhong_md; "a.md"]
  = ["a.md"; zhong_md; String "255" ".md"].
Proof. reflexivity. Qed.

Example exists_forms :
  exists_ tree (joinpath docs "notes.md") = Ok true
  /\ exists_ tree (joinpath docs "d.md") = Ok true
  /\ exists_ tree (joinpath docs "no/x.md") = Ok false
  /\ exists_ tree (joinpath docs "notes.md/x.md") = Ok false
  /\ exists_ tree (joinpath docs (String NUL ".md")) = Ok false
  /\ exists_ tree (joinpath docs long_name)
     = Raise (OSError ENAMETOOLONG (render (joinpath docs long_name))).
Proof. repeat split. Qed.

Example index_lists_visible_markdown :
  wfile (snd (GET docs (mkRequest "/" None "") (start tree)))
  = [SendResponse 200; SendHeader "Content-type" "text/html; charset=utf-8";
     EndHeaders;
     WfileWrite (Html (index_html ["a.md"; "notes.md"; "sub/z.md"]))].
Proof. reflexivity. Qed.

(** A listed name that is not UTF-8: the headers of the index page are
    sent and the encoding of the body raises. *)
Example index_raises_after_headers :
  let w := start (Dir [("d", Dir [(String "255" ".md", File "")])]) in
  GET ["d"] (mkRequest "/" None "") w
  = (Raise (UnicodeEncodeError "utf-8" (index_html [String "255" ".md"])),
     mkWorld (fs w) [Walk ["d"]] page_headers).
Proof. reflexivity. Qed.

Example editor_escapes_backtick_dollar :
  wfile (snd (GET docs (mkRequest "/edit/a.md" None "") (start tree)))
  = [SendResponse 200; SendHeader "Content-type" "text/html; charset=utf-8";
     EndHeaders; WfileWrite (Html (editor_html "a.md" "a\`\$"))]
  /\ unescape "a\`\$" = "a`$".
Proof. split; reflexivity. Qed.

Example editor_reads_absolute_name :
  calls (snd (GET docs (mkRequest "/edit//srv/secret.md" None "") (start tree)))
  = [Stat ["srv"; "secret.md"]; OpenRead ["srv"; "secret.md"]].
Proof. reflexivity. Qed.

(** A name with a NUL byte cannot be resolved: the save answers 403. *)
Example save_nul_name_403 :
  POST docs (mkRequest "/save/a%00.md" (Some "1") "x") (start tree)
  = (Ok tt, mkWorld tree [] [SendError 403 "Access denied"]).
Proof. reflexivity. Qed.

(** At the file system root nothing is outside: [../outside.md] is
    [/outside.md], the check lets it through and the save is done. *)
Lemma outside_md_passes_at_fs_root :
  canonical (joinpath [] "../outside.md") = ["outside.md"]
  /\ security_check [] (joinpath [] "../outside.md") (start tree)
     = (Ok true, start tree)
  /\ wfile (snd (POST [] (mkRequest "/save/../outside.md" (Some "1") "x")
                      (start tree)))
     = json_success.
Proof. repeat split. Qed.

Lemma security_check_iff_inside_witness :
  security_check docs (joinpath docs "../outside.md") (start tree)
  = (Ok false, denied (start tree))
  /\ security_check docs (joinpath docs "sub/new.md") (start tree)
     = (Ok true, start tree).
Proof.
  split.
  - apply (proj2 (proj2 (security_check_iff_inside docs "../outside.md"
                           (start tree)))).
    + vm_compute. discriminate.
    + vm_compute. discriminate.
  - apply (proj1 (security_check_iff_inside docs "sub/new.md" (start tree))).
    split; [reflexivity|]. split; [reflexivity|].
    apply inside_iff. exists ["sub"; "new.md"]. reflexivity.
Defined.


(** A body with CR LF is stored as it is and read back with LF alone. *)
Lemma crlf_body_not_read_back :
  let req := mkRequest "/save/notes.md" (Some "4") crlf_text in
  let w' := snd (POST docs req (start tree)) in
  wfile w' = json_success
  /\ get (fs w') ["srv"; "docs"; "notes.md"] = Some (File crlf_text)
  /\ read_text (fs w') (joinpath docs "notes.md")
     = Ok (String "a" (String LF "b"))
  /\ read_text (fs w') (joinpath docs "notes.md") <> Ok crlf_text.
Proof. cbv zeta. repeat split. vm_compute. discriminate. Qed.

Lemma save_then_read_back_witness :
  exists t',
    save_markdown docs exn_text (mkRequest "/save/notes.md" (Some "4") "# Hi")
                  "notes.md" (start tree)
    = (Ok tt, mkWorld t' [OpenWrite (joinpath docs "notes.md")] json_success)
    /\ get t' ["srv"; "docs"; "notes.md"] = Some (File "# Hi")
    /\ read_text t' (joinpath docs "notes.md") = Ok "# Hi".
Proof.
  destruct (save_then_read_back docs exn_text
              (mkRequest "/save/notes.md" (Some "4") "# Hi") "notes.md"
              (start tree) ["srv"; "docs"; "notes.md"] "old" 4%Z "# Hi" "# Hi")
    as [t' [H1 [_ [H3 [_ [H5 _]]]]]].
  - reflexivity.
  - reflexivity.
  - reflexivity.
  - reflexivity.
  - reflexivity.
  - reflexivity.
  - exists t'. split; [exact H1|]. split; [exact H3|]. apply H5. reflexivity.
Defined.

(** A socket called [s.md] is on the list, though it is no regular
    file; the viewer then answers its link with a 500. *)
Lemma socket_is_listed :
  get with_socket ["s.md"] = Some Socket
  /\ lister with_socket = ["a.md"; "s.md"]
  /\ lister_spec with_socket = ["a.md"]
  /\ wfile (snd (GET ["d"] (mkRequest "/" None "")
                     (start (Dir [("d", with_socket)]))))
     = page (index_html ["a.md"; "s.md"])
  /\ wfile (snd (GET ["d"] (mkRequest "/s.md" None "")
                     (start (Dir [("d", with_socket)]))))
     = [SendError 500
          "Error reading file: [Errno 6] No such device or address: '/d/s.md'"].
Proof. repeat split. Qed.

Lemma lister_sorted_filter_walk_witness :
  lister (Dir [("notes.md", File "old");
               (".hidden", Dir [("b.md", File "x")]);
               ("sub", Dir [("z.md", File "z"); ("a.txt", File "")]);
               ("a.md", File "a`$");
               ("d.md", Dir [])])
  = ["a.md"; "notes.md"; "sub/z.md"].
Proof.
  rewrite (proj1 (proj2 (proj2 (proj2
             (lister_sorted_filter_walk
                (Dir [("notes.md", File "old");
                      (".hidden", Dir [("b.md", File "x")]);
                      ("sub", Dir [("z.md", File "z"); ("a.txt", File "")]);
                      ("a.md", File "a`$");
                      ("d.md", Dir [])])))))
             eq_refl).
  reflexivity.
Defined.

Lemma do_GET_do_POST_dispatch_witness :
  GET docs (mkRequest "/edit/notes.md?x=1" None "")
  = serve_editor docs exn_text "notes.md"
  /\ GET docs (mkRequest "/sub/z%2Emd" None "")
     = serve_markdown docs exn_text paragraph "sub/z.md"
  /\ GET docs (mkRequest "/logo.png" None "")
     = not_found (mkRequest "/logo.png" None "")
  /\ POST docs (mkRequest "/save/notes.md" (Some "4") "# Hi")
     = save_markdown docs exn_text
                     (mkRequest "/save/notes.md" (Some "4") "# Hi")
                     "notes.md".
Proof.
  split; [|split; [|split]].
  - apply (proj1 (proj2 (do_GET_do_POST_dispatch docs exn_text paragraph
                           urlparse_path unquote not_found
                           (mkRequest "/edit/notes.md?x=1" None ""))));
      reflexivity.
  - apply (proj1 (proj2 (proj2 (do_GET_do_POST_dispatch docs exn_text paragraph
                                  urlparse_path unquote not_found
                                  (mkRequest "/sub/z%2Emd" None "")))));
      reflexivity.
  - apply (proj1 (proj2 (proj2 (proj2 (do_GET_do_POST_dispatch docs exn_text
                                  paragraph urlparse_path unquote not_found
                                  (mkRequest "/logo.png" None ""))))));
      (reflexivity || (vm_compute; discriminate)).
  - apply (proj2 (proj2 (proj2 (proj2 (do_GET_do_POST_dispatch docs exn_text
                                  paragraph urlparse_path unquote not_found
                                  (mkRequest "/save/notes.md" (Some "4") "# Hi"))))));
      reflexivity.
Defined.

Lemma do_POST_unmatched_no_action_witness :
  POST docs (mkRequest "/save/notes.txt" (Some "4") "# Hi") (start tree)
  = (Ok tt, start tree).
Proof.
  apply (do_POST_unmatched_no_action docs exn_text urlparse_path unquote).
  reflexivity.
Defined.

Lemma save_markdown_json_response_witness :
  save_markdown docs exn_text (mkRequest "/save/notes.md" (Some "4") "# Hi")
                "notes.md" (start tree)
  = (Ok tt,
     mkWorld (Dir [("srv",
               Dir [("docs",
                     Dir [("notes.md", File "# Hi");
                          (".hidden", Dir [("b.md", File "x")]);
                          ("sub", Dir [("z.md", File "z"); ("a.txt", File "")]);
                          ("a.md", File "a`$");
                          ("d.md", Dir [])]);
                    ("secret.md", File "top secret")])])
             [OpenWrite (joinpath docs "notes.md")] json_success)
  /\ save_markdown docs exn_text (mkRequest "/save/notes.md" None "# Hi")
                   "notes.md" (start tree)
     = (Ok tt,
        mkWorld tree []
          (json_failure
             "int() argument must be a string, a bytes-like object or a real number, not 'NoneType'"))
  /\ save_markdown docs exn_text (mkRequest "/save/notes.md" (Some "-5") "# Hi")
                   "notes.md" (start tree)
     = (Ok tt,
        mkWorld tree []
          (json_failure "read length must be non-negative or -1")).
Proof.
  split; [|split].
  - apply (proj1 (save_markdown_json_response docs exn_text
                    (mkRequest "/save/notes.md" (Some "4") "# Hi")
                    "notes.md" (start tree) eq_refl) 4%Z "# Hi" "# Hi");
      reflexivity.
  - apply (proj1 (proj2 (save_markdown_json_response docs exn_text
                           (mkRequest "/save/notes.md" None "# Hi")
                           "notes.md" (start tree) eq_refl)) NoneToInt).
    reflexivity.
  - apply (proj1 (proj2 (proj2 (save_markdown_json_response docs exn_text
                           (mkRequest "/save/notes.md" (Some "-5") "# Hi")
                           "notes.md" (start tree) eq_refl)))
                  (-5)%Z ReadLength);
      reflexivity.
Defined.

End Runs.

(** * Further runs on the example tree *)

Module MoreRuns.
Import Str StrFacts Codec Posix FS Server Spec Obs Lib.
Import GuardFacts FSFacts SaveFacts ViewFacts.
Import PageFacts HandlerFacts IndexListFacts RouteNameFacts EscapeMoreFacts.
Import TextFacts.



Lemma save_creates_file_witness :
  exists t',
    save_markdown docs exn_text (mkRequest "/save/sub/new.md" (Some "2") "hi")
                  "sub/new.md" (start tree)
    = (Ok tt, mkWorld t' [OpenWrite (joinpath docs "sub/new.md")] json_success)
    /\ file_at t' ["srv"; "docs"; "sub"; "new.md"] "hi".
Proof.
  destruct (save_creates_file docs exn_text
              (mkRequest "/save/sub/new.md" (Some "2") "hi") "sub/new.md"
              (start tree) ["srv"; "docs"; "sub"] "new.md" 2%Z "hi" "hi")
    as [t' [H1 [H2 _]]].
  - reflexivity.
  - reflexivity.
  - reflexivity.
  - reflexivity.
  - reflexivity.
  - reflexivity.
  - reflexivity.
  - exists t'. split; [exact H1 | exact H2].
Defined.

Lemma save_unwritable_target_500_witness :
  save_markdown docs exn_text (mkRequest "/save/d.md" (Some "2") "hi") "d.md"
                (start tree)
  = (Ok tt,
     mkWorld tree [OpenWrite (joinpath docs "d.md")]
       (json_failure "[Errno 21] Is a directory: '/srv/docs/d.md'"))
  /\ save_markdown docs exn_text (mkRequest "/save/no/x.md" (Some "2") "hi")
                   "no/x.md" (start tree)
     = (Ok tt,
        mkWorld tree [OpenWrite (joinpath docs "no/x.md")]
          (json_failure
             "[Errno 2] No such file or directory: '/srv/docs/no/x.md'"))
  /\ save_markdown docs exn_text
                   (mkRequest "/save/notes.md/x.md" (Some "2") "hi")
                   "notes.md/x.md" (start tree)
     = (Ok tt,
        mkWorld tree [OpenWrite (joinpath docs "notes.md/x.md")]
          (json_failure
             "[Errno 20] Not a directory: '/srv/docs/notes.md/x.md'")).
Proof.
  split; [|split].
  - apply (proj1 (proj2 (save_unwritable_target_500 docs exn_text
                    (mkRequest "/save/d.md" (Some "2") "hi") "d.md"
                    (start tree) 2%Z "hi" "hi"
                    eq_refl eq_refl eq_refl eq_refl))
                 ["srv"; "docs"; "d.md"]); reflexivity.
  - apply (proj1 (save_unwritable_target_500 docs exn_text
                    (mkRequest "/save/no/x.md" (Some "2") "hi") "no/x.md"
                    (start tree) 2%Z "hi" "hi"
                    eq_refl eq_refl eq_refl eq_refl) ENOENT).
    reflexivity.
  - apply (proj1 (save_unwritable_target_500 docs exn_text
                    (mkRequest "/save/notes.md/x.md" (Some "2") "hi")
                    "notes.md/x.md"
                    (start tree) 2%Z "hi" "hi"
                    eq_refl eq_refl eq_refl eq_refl) ENOTDIR).
    reflexivity.
Defined.

Lemma do_GET_read_only_witness :
  read_only (GET docs (mkRequest "/edit/notes.md" None "") (start tree))
            (start tree).
Proof.
  apply (do_GET_read_only docs exn_text paragraph urlparse_path unquote
                          not_found).
  intros s w0. split; reflexivity.
Defined.

Lemma viewer_editor_serve_file_witness :
  serve_markdown docs exn_text paragraph "notes.md" (start tree)
  = (Ok tt,
     mkWorld tree
       [Stat (joinpath docs "notes.md"); OpenRead (joinpath docs "notes.md");
        Convert "old"]
       (page (viewer_html "notes.md" "<p>old</p>")))
  /\ serve_editor docs exn_text "a.md" (start tree)
     = (Ok tt,
        mkWorld tree
          [Stat (joinpath docs "a.md"); OpenRead (joinpath docs "a.md")]
          (page (editor_html "a.md" "a\`\$"))).
Proof.
  split.
  - apply (proj1 (viewer_editor_serve_file docs exn_text paragraph "notes.md"
                    (start tree) "old" eq_refl) "<p>old</p>").
    reflexivity.
  - apply (proj2 (viewer_editor_serve_file docs exn_text paragraph "a.md"
                    (start tree) "a`$" eq_refl)).
Defined.

Lemma saved_text_is_served_witness :
  let req := mkRequest "/save/notes.md" (Some "4") crlf_text in
  let w' := snd (save_markdown docs exn_text req "notes.md" (start tree)) in
  exists n body,
    py_int (content_length req) = Ok n
    /\ rfile_read req n = Ok body
    /\ serve_editor docs exn_text "notes.md" w'
       = (Ok tt,
          mkWorld (fs w')
            (calls w' ++ [Stat (joinpath docs "notes.md");
                          OpenRead (joinpath docs "notes.md")])
            (wfile w' ++ page (editor_html "notes.md"
                                 (escape_for_js (universal_newlines body))))).
Proof.
  cbv zeta.
  destruct (saved_text_is_served docs exn_text paragraph
              (mkRequest "/save/notes.md" (Some "4") crlf_text)
              "notes.md" (start tree) eq_refl)
    as [n [body [H1 [H2 [_ [_ [_ H6]]]]]]].
  exists n, body. split; [exact H1|]. split; [exact H2 | exact H6].
Defined.

Lemma lister_complete_witness :
  In "sub/z.md"
     (lister (Dir [("notes.md", File "old");
                   ("sub", Dir [("z.md", File "z")])])).
Proof.
  apply (lister_complete _ ["sub"; "z.md"] "z"); reflexivity.
Defined.

Lemma listed_links_reach_markdown_handlers_witness :
  GET docs (mkRequest "/edit/x.md" None "") = serve_editor docs exn_text "x.md"
  /\ GET docs (mkRequest "/x.md" None "")
     = serve_markdown docs exn_text paragraph "x.md".
Proof.
  split.
  - apply (proj1 (proj2 (listed_links_reach_markdown_handlers docs exn_text
                           paragraph urlparse_path unquote not_found
                           (Dir [("x.md", File "")]) "x.md"
                           (mkRequest "/edit/x.md" None "")
                           (or_introl eq_refl)))).
    reflexivity.
  - destruct (proj2 (proj2 (listed_links_reach_markdown_handlers docs exn_text
                              paragraph urlparse_path unquote not_found
                              (Dir [("x.md", File "")]) "x.md"
                              (mkRequest "/x.md" None "")
                              (or_introl eq_refl))) eq_refl)
      as [[_ H]|[rest [H _]]].
    + exact H.
    + discriminate H.
Defined.

Lemma plain_name_passes_check_witness :
  security_check docs (joinpath docs "sub/./new.md") (start tree)
  = (Ok true, start tree).
Proof.
  apply (plain_name_passes_check docs "sub/./new.md" (start tree));
    reflexivity.
Defined.

Lemma saved_file_is_listed_witness :
  let req := mkRequest "/save/sub/new.md" (Some "2") "hi" in
  let w' := snd (save_markdown docs exn_text req "sub/new.md" (start tree)) in
  exists top',
    get (fs w') ["srv"; "docs"] = Some top' /\ In "sub/new.md" (lister top').
Proof.
  cbv zeta.
  edestruct (saved_file_is_listed docs exn_text
               (mkRequest "/save/sub/new.md" (Some "2") "hi") "sub/new.md"
               (start tree) ["srv"; "docs"])
    as [top' [H1 [H2 _]]].
  - reflexivity.
  - reflexivity.
  - reflexivity.
  - reflexivity.
  - reflexivity.
  - exists top'. split; [exact H1 | exact H2].
Defined.

Lemma viewer_opens_below_script_dir_witness :
  inside (canonical docs) (canonical (docs ++ parse_parts "//sub/z.md")%list)
  /\ GET docs (mkRequest "//sub/z.md" None "") (start tree)
     = serve_markdown docs exn_text paragraph "sub/z.md" (start tree).
Proof.
  pose proof (viewer_opens_below_script_dir docs exn_text paragraph
                urlparse_path unquote not_found
                (mkRequest "//sub/z.md" None "") (start tree)
                eq_refl eq_refl) as [H1 [_ [_ [_ H5]]]].
  split; [apply H5; reflexivity | exact H1].
Defined.

Lemma routes_keep_the_name_witness :
  GET docs (mkRequest "/edit/sub/edit/z.md" None "")
  = serve_editor docs exn_text "sub/edit/z.md"
  /\ GET docs (mkRequest "/edit/x.md" None "")
     = serve_editor docs exn_text "x.md".
Proof.
  split.
  - apply (proj1 (routes_keep_the_name docs exn_text paragraph urlparse_path
                    unquote not_found
                    (mkRequest "/edit/sub/edit/z.md" None "")
                    "sub/edit/z.md" eq_refl)).
    reflexivity.
  - apply (proj2 (proj2 (proj2 (routes_keep_the_name docs exn_text paragraph
                                  urlparse_path unquote not_found
                                  (mkRequest "/edit/x.md" None "")
                                  "edit/x.md" eq_refl))) "x.md");
      reflexivity.
Defined.

Lemma read_handlers_open_any_existing_path_witness :
  In (OpenRead (docs ++ [".."; "secret.md"])%list)
     (calls (snd (serve_editor docs exn_text "../secret.md" (start tree)))).
Proof.
  apply (proj2 (read_handlers_open_any_existing_path docs exn_text paragraph
                  "../secret.md" (start tree) eq_refl)).
Defined.

Lemma escape_adds_one_per_special_witness :
  contains (editor_html "n.md" (escape_for_js "</textarea><b>"))
           (editor_open ++ "</textarea><b>" ++ editor_close).
Proof.
  apply (proj2 (proj2 (escape_adds_one_per_special "</textarea><b>") eq_refl)
               "n.md").
Defined.

Lemma text_read_has_no_cr_witness :
  mem CR (String "a" (String LF "b")) = false.
Proof.
  apply (text_read_has_no_cr
           (Dir [("n.md", File crlf_text)]) ["n.md"]).
  reflexivity.
Defined.


End MoreRuns.
